(** * GEM communication handler (secsgem/gem/handler.py)

    A shallow embedding of [GemHandler]: the communication state machine
    built in [__init__], the packet dispatcher [_on_hsms_packet_received],
    the timer callbacks, the state entry and exit callbacks and
    [waitfor_communicating].

    The handler is a Python object whose methods mutate [self], create
    [threading.Timer] and [threading.Event] objects and talk to the
    connection, the logger and the event producer.  The embedding threads a
    [World] through a small state and exception monad: the attributes of
    [self], a heap for the timer and event objects (both are shared by
    reference), a logical clock, and the trace of the primitive operations
    in the order in which the code performs them.  Transitions are taken one
    at a time; thread interleaving inside one method is not modelled. *)

From Stdlib Require Import ZArith Ascii.
From stdpp Require Import base tactics option list strings pretty gmap.

Local Open Scope Z_scope.

(** ** The communication state machine *)

(** The states named in the table passed to [Fysom] in [__init__]. *)
Inductive state : Set :=
  | DISABLED
  | ENABLED
  | NOT_COMMUNICATING
  | EQUIPMENT_INITIATED_CONNECT
  | WAIT_CRA
  | WAIT_DELAY
  | COMMUNICATING
  | HOST_INITIATED_CONNECT
  | WAIT_CR_FROM_HOST.

#[global] Instance state_eq_dec : EqDecision state.
Proof. solve_decision. Defined.

(** The event names of the table.  They live in a module of their own
    because [enable] and [disable] are also methods of the handler. *)
Module Event.
Inductive t : Set :=
  | enable
  | disable
  | select
  | communicationreqfail
  | delayexpired
  | messagereceived
  | s1f14received
  | communicationfail
  | s1f13received.

#[global] Instance eq_dec : EqDecision t.
Proof. solve_decision. Defined.
End Event.

(** One entry of the ['events'] list: [{'name': .., 'src': .., 'dst': ..}].
    A ['src'] that is a single string is a one-element list. *)
Record transition : Set := Transition {
  name : Event.t;
  src : list state;
  dst : state;
}.

(** The ['events'] list of [__init__], entry by entry. *)
Definition events : list transition := [
  Transition Event.enable [DISABLED] ENABLED;
  Transition Event.disable
    [ENABLED; NOT_COMMUNICATING; COMMUNICATING; EQUIPMENT_INITIATED_CONNECT;
     WAIT_DELAY; WAIT_CRA; HOST_INITIATED_CONNECT; WAIT_CR_FROM_HOST]
    DISABLED;
  Transition Event.select [NOT_COMMUNICATING] EQUIPMENT_INITIATED_CONNECT;
  Transition Event.communicationreqfail [WAIT_CRA] WAIT_DELAY;
  Transition Event.delayexpired [WAIT_DELAY] WAIT_CRA;
  Transition Event.messagereceived [WAIT_DELAY] WAIT_CRA;
  Transition Event.s1f14received [WAIT_CRA] COMMUNICATING;
  Transition Event.communicationfail [COMMUNICATING] NOT_COMMUNICATING;
  Transition Event.s1f13received [WAIT_CR_FROM_HOST; WAIT_DELAY; WAIT_CRA]
    COMMUNICATING
].

(** The ['autoforward'] list of [__init__]: pairs of ['src'] and ['dst']. *)
Definition autoforward : list (state * state) := [
  (ENABLED, NOT_COMMUNICATING);
  (EQUIPMENT_INITIATED_CONNECT, WAIT_CRA);
  (HOST_INITIATED_CONNECT, WAIT_CR_FROM_HOST)
].

(** ['initial': 'DISABLED']. *)
Definition initial : state := DISABLED.

Module Fysom.

(** Modelled from the spec: the [Fysom] engine (secsgem.common.fysom) is
    not among the sources; only the table handed to it is.  The spec
    describes an explicit finite-state machine with guarded transitions,
    entry and exit actions and auto-forwarding of transient states, whose
    transitions occur only via the table: the destination of an event is
    looked up under the event's name and the current state. *)
Definition lookup_dst (table : list transition) (ev : Event.t) (current : state)
  : option state :=
  dst <$> List.find
    (λ tr, bool_decide (name tr = ev) && bool_decide (current ∈ src tr)) table.

(** Modelled from the spec: a transient state forwards once to the state
    the ['autoforward'] list pairs it with ("ENABLED -> (auto)
    NOT_COMMUNICATING"); any other state stays. *)
Definition forward (auto : list (state * state)) (s : state) : state :=
  match List.find (λ p, bool_decide (p.1 = s)) auto with
  | Some p => p.2
  | None => s
  end.

(** Modelled from the spec: the pure transition function
    [(state, event) -> state] of the machine built in [__init__];
    [None] when the event is not valid in the current state. *)
Definition next (ev : Event.t) (current : state) : option state :=
  forward autoforward <$> lookup_dst events ev current.

End Fysom.

(** ** Messages *)

(** [HsmsHeader]: the fields of [packet.header] the handler reads. *)
Record HsmsHeader : Set := {
  sessionID : Z;
  requireResponse : bool;
  stream : Z;
  function : Z;
  system : Z;
}.

Record HsmsPacket : Set := {
  header : HsmsHeader;
  data : list Byte.byte;
}.

(** The SECS functions the handler builds, with the value it passes to the
    constructor.  [SecsS01F13 None] is [stream_function(1, 13)()], and the
    [DATA] of an S1F14 is [None] when the dictionary has no ["DATA"] key.
    [SecsS09F05 h] stands for [SecsS09F05(h.encode())]: the encoding of a
    header belongs to the transport.  [SecsS01F01] is built by the decoder
    only. *)
Inductive SecsFunction : Set :=
  | SecsS01F01
  | SecsS01F02
  | SecsS01F13 (value : option (list string))
  | SecsS01F14 (COMMACK : Z) (DATA : option (list string))
  | SecsS09F05 (MHEAD : HsmsHeader).

(** ** Objects on the heap *)

(** The bound method a [threading.Timer] is created with. *)
Inductive TimerFunction : Set :=
  | on_wait_cra_timeout
  | on_wait_comm_delay_timeout.

(** A [threading.Timer]: its [interval] and [function], the time at which
    [start()] was called, and its [finished] flag, which [cancel()] sets and
    which the timer thread sets after it has run the function. *)
Record Timer : Set := {
  interval : Z;
  timer_function : TimerFunction;
  started : option Z;
  finished : bool;
}.

(** The functions stored in [self.callbacks]. *)
Inductive Callback : Set :=
  | s01f01_handler
  | s01f13_handler
  | user_callback (n : nat).

(** The attributes of [self] that the handler reads or writes.
    [communicationState] is the [current] state of the Fysom object,
    [T3] is [self.connection.T3]; timers and events are references into the
    heap of the [World]. *)
Record GemHandler : Type := {
  MDLN : string;
  SOFTREV : string;
  isHost : bool;
  communicationState : state;
  waitCRATimer : option nat;
  commDelayTimer : option nat;
  commDelayTimeout : Z;
  reportIDCounter : Z;
  waitEventList : list nat;
  callbacks : gmap string (list Callback);
  T3 : Z;
}.

Inductive level : Set := DEBUG | INFO | WARNING.

(** The primitive operations of the handler, as they appear in the trace. *)
Inductive action : Type :=
  | SecsDecode (packet : HsmsPacket)
  | Log (lvl : level)
  | IsState (s : state) (result : bool)
  | SendResponse (f : SecsFunction) (system_bytes : Z)
  | SendStreamFunction (f : SecsFunction)
  | FireEvent (event_name : string) (async : bool)
  | StartThread (callback_index : string) (packet : HsmsPacket)
  | ConnectionEnable
  | ConnectionDisable
  | TimerStart (timer : nat)
  | TimerCancel (timer : nat)
  | EventSet (event : nat)
  | EventWait (event : nat) (timeout : option Z)
  | WaitListAppend (event : nat)
  | WaitListRemove (event : nat)
  | ParentConnectionClosed.

Record World : Type := {
  self : GemHandler;
  timer_heap : gmap nat Timer;
  event_heap : gmap nat bool;
  clock : Z;
  trace : list action;
}.

(** The overridable [on_commack_requested] method: a subclass decides from
    the handler whether the connection request is accepted. *)
Class GemApplication : Type := on_commack_requested : GemHandler → Z.

(** [GemHandler.on_commack_requested]: [return 0]. *)
#[global] Instance GemHandler_on_commack_requested : GemApplication := λ _, 0.

(** ** State and exception monad *)

Inductive exn : Set :=
  | FysomError (ev : Event.t) (current : state)
  | ValueError
  | IndexError.

Inductive outcome (A : Type) : Type :=
  | Ok (a : A)
  | Raised (e : exn).
Arguments Ok {A} a.
Arguments Raised {A} e.

(** [self.secs_decode], inherited from [SecsHandler]: the decoder is not
    part of this file.  It returns the decoded function, or [None] for a
    function it does not know, or raises, as it does on a body it cannot
    decode. *)
Class SecsCodec : Type :=
  secs_decode : HsmsPacket → outcome (option SecsFunction).

Definition M (A : Type) : Type := World → outcome A * World.

#[global] Instance M_ret : MRet M := λ A a w, (Ok a, w).

#[global] Instance M_bind : MBind M := λ A B k m w,
  match m w with
  | (Ok a, w') => k a w'
  | (Raised e, w') => (Raised e, w')
  end.

Definition raise {A} (e : exn) : M A := λ w, (Raised e, w).

Definition get_self : M GemHandler := λ w, (Ok (self w), w).

Definition modify_self (f : GemHandler → GemHandler) : M unit := λ w,
  (Ok (), {| self := f (self w); timer_heap := timer_heap w;
             event_heap := event_heap w; clock := clock w; trace := trace w |}).

Definition emit (a : action) : M unit := λ w,
  (Ok (), {| self := self w; timer_heap := timer_heap w;
             event_heap := event_heap w; clock := clock w;
             trace := trace w ++ [a] |}).

Definition set_timer_heap (h : gmap nat Timer) (w : World) : World :=
  {| self := self w; timer_heap := h; event_heap := event_heap w;
     clock := clock w; trace := trace w |}.

Definition set_event_heap (h : gmap nat bool) (w : World) : World :=
  {| self := self w; timer_heap := timer_heap w; event_heap := h;
     clock := clock w; trace := trace w |}.

Definition set_clock (t : Z) (w : World) : World :=
  {| self := self w; timer_heap := timer_heap w; event_heap := event_heap w;
     clock := t; trace := trace w |}.

(** Assignments to the attributes of [self]. *)
Definition set_communicationState (s : state) (h : GemHandler) : GemHandler :=
  {| MDLN := MDLN h; SOFTREV := SOFTREV h; isHost := isHost h;
     communicationState := s;
     waitCRATimer := waitCRATimer h; commDelayTimer := commDelayTimer h;
     commDelayTimeout := commDelayTimeout h;
     reportIDCounter := reportIDCounter h;
     waitEventList := waitEventList h; callbacks := callbacks h; T3 := T3 h |}.

Definition set_waitCRATimer (t : option nat) (h : GemHandler) : GemHandler :=
  {| MDLN := MDLN h; SOFTREV := SOFTREV h; isHost := isHost h;
     communicationState := communicationState h;
     waitCRATimer := t; commDelayTimer := commDelayTimer h;
     commDelayTimeout := commDelayTimeout h;
     reportIDCounter := reportIDCounter h;
     waitEventList := waitEventList h; callbacks := callbacks h; T3 := T3 h |}.

Definition set_commDelayTimer (t : option nat) (h : GemHandler) : GemHandler :=
  {| MDLN := MDLN h; SOFTREV := SOFTREV h; isHost := isHost h;
     communicationState := communicationState h;
     waitCRATimer := waitCRATimer h; commDelayTimer := t;
     commDelayTimeout := commDelayTimeout h;
     reportIDCounter := reportIDCounter h;
     waitEventList := waitEventList h; callbacks := callbacks h; T3 := T3 h |}.

Definition set_waitEventList (l : list nat) (h : GemHandler) : GemHandler :=
  {| MDLN := MDLN h; SOFTREV := SOFTREV h; isHost := isHost h;
     communicationState := communicationState h;
     waitCRATimer := waitCRATimer h; commDelayTimer := commDelayTimer h;
     commDelayTimeout := commDelayTimeout h;
     reportIDCounter := reportIDCounter h;
     waitEventList := l; callbacks := callbacks h; T3 := T3 h |}.

(** ** Primitive operations *)

(** [self.communicationState.isstate(s)]. *)
Definition isstate (s : state) : M bool :=
  h ← get_self;
  let b := bool_decide (communicationState h = s) in
  emit (IsState s b);; mret b.

(** [threading.Timer(interval, function)]: a new object on the heap. *)
Definition Timer_new (i : Z) (f : TimerFunction) : M nat := λ w,
  let t := fresh (dom (timer_heap w)) in
  (Ok t, set_timer_heap
           (<[t := {| interval := i; timer_function := f;
                      started := None; finished := false |}]> (timer_heap w)) w).

Definition set_started (now : Z) (o : Timer) : Timer :=
  {| interval := interval o; timer_function := timer_function o;
     started := Some now; finished := finished o |}.

Definition set_finished (o : Timer) : Timer :=
  {| interval := interval o; timer_function := timer_function o;
     started := started o; finished := true |}.

(** [timer.start()]: the timer thread begins to wait at the current time. *)
Definition Timer_start (t : nat) : M unit := λ w,
  (emit (TimerStart t))
    (set_timer_heap (alter (set_started (clock w)) t (timer_heap w)) w).

(** [timer.cancel()]: sets the [finished] flag, whatever its value. *)
Definition Timer_cancel (t : nat) : M unit := λ w,
  (emit (TimerCancel t))
    (set_timer_heap (alter set_finished t (timer_heap w)) w).

(** [threading.Event()]: a new object on the heap, flag cleared. *)
Definition Event_new : M nat := λ w,
  let e := fresh (dom (event_heap w)) in
  (Ok e, set_event_heap (<[e := false]> (event_heap w)) w).

(** [event.set()]. *)
Definition Event_set (e : nat) : M unit := λ w,
  (emit (EventSet e)) (set_event_heap (<[e := true]> (event_heap w)) w).

(** The value with which [event.wait(timeout)] returns: the flag of the
    event at that moment, true after a release, false after a timeout. *)
Definition Event_wait_result (e : nat) : M bool := λ w,
  (Ok (default false (event_heap w !! e)), w).

(** [list.remove(x)] on a Python list: the first occurrence goes;
    [None] stands for the [ValueError] of an absent element. *)
Fixpoint list_remove (x : nat) (l : list nat) : option (list nat) :=
  match l with
  | [] => None
  | y :: l' => if decide (y = x) then Some l' else (y ::.) <$> list_remove x l'
  end.

(** [self.waitEventList.append(event)]. *)
Definition waitEventList_append (e : nat) : M unit :=
  modify_self (λ h, set_waitEventList (waitEventList h ++ [e]) h);;
  emit (WaitListAppend e).

(** [self.waitEventList.remove(event)]. *)
Definition waitEventList_remove (e : nat) : M unit :=
  h ← get_self;
  match list_remove e (waitEventList h) with
  | Some l => modify_self (set_waitEventList l);; emit (WaitListRemove e)
  | None => raise ValueError
  end.

(** [self.send_response(function, system)]. *)
Definition send_response (f : SecsFunction) (sys : Z) : M unit :=
  emit (SendResponse f sys).

(** [self.send_stream_function(function)]. *)
Definition send_stream_function (f : SecsFunction) : M unit :=
  emit (SendStreamFunction f).

(** [pass], and the end of a method without a [return]. *)
Definition pass : M unit := mret ().

(** [for x in l: body(x)]. *)
Fixpoint for_each {A} (l : list A) (body : A → M unit) : M unit :=
  match l with
  | [] => pass
  | x :: l' => body x;; for_each l' body
  end.

(** ** The methods of [GemHandler] *)

Section handler.
Context `{app : GemApplication} `{codec : SecsCodec}.

(** [message = self.secs_decode(packet)]: the call is recorded; an
    exception of the decoder leaves the method that called it. *)
Definition call_secs_decode (packet : HsmsPacket) : M (option SecsFunction) :=
  emit (SecsDecode packet);;
  match secs_decode packet with
  | Ok message => mret message
  | Raised e => raise e
  end.

(** [_on_state_wait_cra], the ['onWAIT_CRA'] callback. *)
Definition _on_state_wait_cra : M unit :=
  emit (Log DEBUG);;
  h ← get_self;
  t ← Timer_new (T3 h) on_wait_cra_timeout;
  modify_self (set_waitCRATimer (Some t));;
  Timer_start t;;
  if isHost h then send_stream_function (SecsS01F13 None)
  else send_stream_function (SecsS01F13 (Some [MDLN h; SOFTREV h])).

(** [_on_state_wait_delay], the ['onWAIT_DELAY'] callback. *)
Definition _on_state_wait_delay : M unit :=
  emit (Log DEBUG);;
  h ← get_self;
  t ← Timer_new (commDelayTimeout h) on_wait_comm_delay_timeout;
  modify_self (set_commDelayTimer (Some t));;
  Timer_start t.

(** [_on_state_leave_wait_cra], the ['onleaveWAIT_CRA'] callback. *)
Definition _on_state_leave_wait_cra : M unit :=
  h ← get_self;
  match waitCRATimer h with
  | Some t => Timer_cancel t
  | None => pass
  end.

(** [_on_state_leave_wait_delay], the ['onleaveWAIT_DELAY'] callback. *)
Definition _on_state_leave_wait_delay : M unit :=
  h ← get_self;
  match commDelayTimer h with
  | Some t => Timer_cancel t
  | None => pass
  end.

(** [_on_state_communicating], the ['onCOMMUNICATING'] callback. *)
Definition _on_state_communicating : M unit :=
  emit (Log DEBUG);;
  emit (FireEvent "handler_communicating" true);;
  h ← get_self;
  for_each (waitEventList h) Event_set.

(** The ['callbacks'] dictionary of [__init__]: the exit callbacks
    ['onleave<STATE>'] and the entry callbacks ['on<STATE>']. *)
Definition onleave (s : state) : M unit :=
  match s with
  | WAIT_CRA => _on_state_leave_wait_cra
  | WAIT_DELAY => _on_state_leave_wait_delay
  | _ => pass
  end.

Definition onenter (s : state) : M unit :=
  match s with
  | WAIT_CRA => _on_state_wait_cra
  | WAIT_DELAY => _on_state_wait_delay
  | COMMUNICATING => _on_state_communicating
  | _ => pass
  end.

(** Modelled from the spec: firing an event of the Fysom object
    [self.communicationState] (the engine is not among the sources).  The
    transition is guarded by the table; the state value is committed and
    the exit action of the state left and the entry action of the state
    entered are then run.  An event the table does not allow in the current
    state changes nothing and is reported to the caller as an error. *)
Definition fire (ev : Event.t) : M unit :=
  h ← get_self;
  let current := communicationState h in
  match Fysom.next ev current with
  | None => raise (FysomError ev current)
  | Some dst =>
      modify_self (set_communicationState dst);;
      onleave current;;
      onenter dst
  end.

(** [enable]. *)
Definition enable : M unit :=
  emit ConnectionEnable;;
  fire Event.enable;;
  emit (Log INFO).

(** [disable]. *)
Definition disable : M unit :=
  emit ConnectionDisable;;
  fire Event.disable;;
  emit (Log INFO).

(** The key of [self.callbacks] for a message:
    ["s" + str(stream) + "f" + str(function)]. *)
Definition callback_index_of (hd : HsmsHeader) : string :=
  "s" +:+ pretty (stream hd) +:+ "f" +:+ pretty (function hd).

(** [_on_hsms_packet_received]. *)
Definition _on_hsms_packet_received (packet : HsmsPacket) : M unit :=
  message ← call_secs_decode packet;
  emit (Log INFO);;
  in_wait_cra ← isstate WAIT_CRA;
  if (in_wait_cra : bool) then
    if bool_decide (stream (header packet) = 1)
       && bool_decide (function (header packet) = 13) then
      h ← get_self;
      (if isHost h then
         send_response (SecsS01F14 (on_commack_requested h) (Some []))
           (system (header packet))
       else
         send_response
           (SecsS01F14 (on_commack_requested h) (Some [MDLN h; SOFTREV h]))
           (system (header packet)));;
      fire Event.s1f13received
    else if bool_decide (stream (header packet) = 1)
            && bool_decide (function (header packet) = 14) then
      fire Event.s1f14received
    else pass
  else
    in_wait_delay ← isstate WAIT_DELAY;
    if (in_wait_delay : bool) then pass
    else
      in_communicating ← isstate COMMUNICATING;
      if (in_communicating : bool) then
        let callback_index := callback_index_of (header packet) in
        h ← get_self;
        if bool_decide (is_Some (callbacks h !! callback_index)) then
          emit (StartThread callback_index packet)
        else
          emit (Log WARNING);;
          if requireResponse (header packet) then
            send_response (SecsS09F05 (header packet)) (system (header packet))
          else pass
      else pass.

(** [_on_hsms_select]. *)
Definition _on_hsms_select : M unit := fire Event.select.

(** [_on_wait_cra_timeout]. *)
Definition _on_wait_cra_timeout : M unit := fire Event.communicationreqfail.

(** [_on_wait_comm_delay_timeout]. *)
Definition _on_wait_comm_delay_timeout : M unit := fire Event.delayexpired.

(** [on_connection_closed]: the log record, the handler of the parent
    class ([SecsHandler.on_connection_closed], which is not defined in this
    file: its call is recorded on the trace), then the event of the state
    machine. *)
Definition on_connection_closed : M unit :=
  emit (Log INFO);;
  emit ParentConnectionClosed;;
  fire Event.communicationfail.

(** [waitfor_communicating] up to the point where the caller either returns
    at once ([Some True]) or blocks in [event.wait(timeout)] ([None]).  The
    event created by the call is returned with the result. *)
Definition waitfor_communicating (timeout : option Z) : M (nat * option bool) :=
  event ← Event_new;
  waitEventList_append event;;
  in_communicating ← isstate COMMUNICATING;
  if (in_communicating : bool) then
    waitEventList_remove event;;
    mret (event, Some true)
  else
    emit (EventWait event timeout);;
    mret (event, None).

(** The rest of [waitfor_communicating], from the return of
    [event.wait(timeout)] on. *)
Definition waitfor_communicating_resume (event : nat) : M bool :=
  result ← Event_wait_result event;
  waitEventList_remove event;;
  mret result.

(** ** Time *)

(** The function a timer was created with. *)
Definition call_timer_function (f : TimerFunction) : M unit :=
  match f with
  | on_wait_cra_timeout => _on_wait_cra_timeout
  | on_wait_comm_delay_timeout => _on_wait_comm_delay_timeout
  end.

(** The timer thread sets [finished] when the function has returned. *)
Definition Timer_finish (t : nat) : M unit := λ w,
  (Ok (), set_timer_heap (alter set_finished t (timer_heap w)) w).

(** A timer is live when it was started and is not finished. *)
Definition live (o : Timer) : bool :=
  bool_decide (is_Some (started o)) && negb (finished o).

(** [threading.Timer.run]: once the interval has passed since [start()],
    a timer that was not cancelled calls its function and is finished.
    Before that moment, and for a timer that is finished, nothing happens. *)
Definition Timer_run (t : nat) : M unit := λ w,
  match timer_heap w !! t with
  | Some o =>
      match started o with
      | Some s =>
          if finished o then (Ok (), w)
          else if bool_decide (s + Z.max 0 (interval o) ≤ clock w) then
            (call_timer_function (timer_function o);; Timer_finish t) w
          else (Ok (), w)
      | None => (Ok (), w)
      end
  | None => (Ok (), w)
  end.

(** Time passes until the clock shows [t]. *)
Definition advance (t : Z) : M unit := λ w,
  (Ok (), set_clock (Z.max (clock w) t) w).

(** ** Runs *)

(** What can happen to a handler: calls of its public methods, the
    transport's notifications, timer threads and the passing of time. *)
Inductive op : Set :=
  | OpEnable
  | OpDisable
  | OpPacket (packet : HsmsPacket)
  | OpSelect
  | OpConnectionClosed
  | OpWait (timeout : option Z)
  | OpResume (event : nat)
  | OpTimer (timer : nat)
  | OpAdvance (t : Z).

Definition run_op (o : op) : M unit :=
  match o with
  | OpEnable => enable
  | OpDisable => disable
  | OpPacket p => _on_hsms_packet_received p
  | OpSelect => _on_hsms_select
  | OpConnectionClosed => on_connection_closed
  | OpWait timeout => waitfor_communicating timeout;; mret ()
  | OpResume e => waitfor_communicating_resume e;; mret ()
  | OpTimer t => Timer_run t
  | OpAdvance t => advance t
  end.

(** An exception ends the call that raised it; the handler lives on. *)
Definition exec (ops : list op) (w : World) : World :=
  foldl (λ w o, (run_op o w).2) w ops.

End handler.

(** ** Observations and invariants *)

Definition with_trace (tr : list action) (w : World) : World :=
  {| self := self w; timer_heap := timer_heap w; event_heap := event_heap w;
     clock := clock w; trace := tr |}.

(** What was appended to the trace between [w] and [w']. *)
Definition trace_since (w w' : World) : list action :=
  drop (length (trace w)) (trace w').

(** The replies sent with [send_response], with their system bytes. *)
Definition responses (tr : list action) : list (SecsFunction * Z) :=
  omap (λ a, match a with SendResponse f s => Some (f, s) | _ => None end) tr.

(** The primary messages sent with [send_stream_function]. *)
Definition requests (tr : list action) : list SecsFunction :=
  omap (λ a, match a with SendStreamFunction f => Some f | _ => None end) tr.

(** The index of the first action of a trace that satisfies [p]. *)
Fixpoint position (p : action → bool) (tr : list action) : option nat :=
  match tr with
  | [] => None
  | a :: tr' => if p a then Some 0%nat else S <$> position p tr'
  end.

Definition is_state_test (s : state) (a : action) : bool :=
  match a with
  | IsState s' _ => bool_decide (s' = s)
  | _ => false
  end.

Definition is_registration (a : action) : bool :=
  match a with
  | WaitListAppend _ => true
  | _ => false
  end.

Definition is_removal (e : nat) (a : action) : bool :=
  match a with
  | WaitListRemove e' => bool_decide (e' = e)
  | _ => false
  end.

Definition touches_waitlist (a : action) : bool :=
  match a with
  | WaitListAppend _ | WaitListRemove _ => true
  | _ => false
  end.

(** Decoding, logging and reading the state: no effect on the session. *)
Definition passive (a : action) : bool :=
  match a with
  | SecsDecode _ | Log _ | IsState _ _ => true
  | _ => false
  end.

(** The communication state of a world. *)
Definition current (w : World) : state := communicationState (self w).

(** The timer a state owns: the handshake timer [cra] ([self.waitCRATimer])
    in WAIT_CRA, the retry-delay timer [delay] ([self.commDelayTimer]) in
    WAIT_DELAY. *)
Definition owns (s : state) (cra delay : option nat) (t : nat) : Prop :=
  (s = WAIT_CRA ∧ cra = Some t) ∨ (s = WAIT_DELAY ∧ delay = Some t).

(** No timer on the heap is live. *)
Definition no_live (heap : gmap nat Timer) : Prop :=
  map_Forall (λ _ o, live o = false) heap.

(** Every live timer of the heap is the one the state [s] owns. *)
Definition owned (s : state) (cra delay : option nat) (heap : gmap nat Timer)
  : Prop :=
  map_Forall (λ t o, live o = true → owns s cra delay t) heap.

Definition timers_wf (w : World) : Prop :=
  owned (current w) (waitCRATimer (self w)) (commDelayTimer (self w))
    (timer_heap w).

Definition timers_ok (w : World) : bool := bool_decide (timers_wf w).

(** The wait list holds no event twice, and only events of the heap. *)
Definition waitlist_wf (w : World) : Prop :=
  NoDup (waitEventList (self w))
  ∧ Forall (λ e, is_Some (event_heap w !! e)) (waitEventList (self w)).

Definition waitlist_ok (w : World) : bool := bool_decide (waitlist_wf w).

(** The flags of the events after [event.set()] on each event of [l]. *)
Definition release (l : list nat) (heap : gmap nat bool) : gmap nat bool :=
  foldl (λ heap e, <[e := true]> heap) heap l.

(** One transition of the table, auto-forward included. *)
Definition fysom_step (s s' : state) : Prop :=
  ∃ ev, Fysom.next ev s = Some s'.

(** The event [e] stays registered from [w] to [w'], and the trace grew by
    actions among which none removes it. *)
Definition keeps (e : nat) (w w' : World) : Prop :=
  e ∈ waitEventList (self w) →
  e ∈ waitEventList (self w')
  ∧ ∃ δ, trace w' = trace w ++ δ ∧ Forall (λ a, is_removal e a = false) δ.

(** How a session may evolve: the state moves along the table, the timers
    stay with the states that own them, the wait list stays well formed
    and, outside the call that owns it, the entry [oe] stays in place. *)
Definition evolves (oe : option nat) (w w' : World) : Prop :=
  rtc fysom_step (current w) (current w')
  ∧ (timers_wf w → timers_wf w')
  ∧ (waitlist_wf w → waitlist_wf w' ∧ ∀ e, oe = Some e → keeps e w w').

Definition respects (oe : option nat) {A} (m : M A) : Prop :=
  ∀ w, evolves oe w (m w).2.

(** The state machine alone: an event the table does not allow in the
    current state leaves the state as it is. *)
Definition run_events (evs : list Event.t) (s : state) : state :=
  foldl (λ s ev, default s (Fysom.next ev s)) s evs.

(** ** Sample sessions *)

(** The attributes [__init__] gives a new handler whose connection has the
    response timeout [t3]. *)
Definition __init__ (t3 : Z) : GemHandler := {|
  MDLN := "secsgem";
  SOFTREV := "0.0.3";
  isHost := true;
  communicationState := initial;
  waitCRATimer := None;
  commDelayTimer := None;
  commDelayTimeout := 10;
  reportIDCounter := 1000;
  waitEventList := [];
  callbacks := <["s1f13" := [s01f13_handler]]> {["s1f1" := [s01f01_handler]]};
  T3 := t3;
|}.

Definition new_world (h : GemHandler) : World :=
  {| self := h; timer_heap := ∅; event_heap := ∅; clock := 0; trace := [] |}.

(** The SECS-II bodies of the sample messages: an empty list for S1F13 as
    a host sends it, and for S1F14 a list of the COMMACK byte 0 and an empty
    list; the other sample messages are header only. *)
Definition sample_body (s f : Z) : list Byte.byte :=
  if bool_decide (s = 1) && bool_decide (f = 13) then [Byte.x01; Byte.x00]
  else if bool_decide (s = 1) && bool_decide (f = 14) then
    [Byte.x01; Byte.x02; Byte.x21; Byte.x01; Byte.x00; Byte.x01; Byte.x00]
  else [].

Definition sample_packet (s f : Z) (r : bool) : HsmsPacket :=
  {| header := {| sessionID := 0; requireResponse := r; stream := s;
                  function := f; system := 77 |};
     data := sample_body s f |}.

(** A message of the same header whose body is missing. *)
Definition truncated_packet (s f : Z) (r : bool) : HsmsPacket :=
  {| header := {| sessionID := 0; requireResponse := r; stream := s;
                  function := f; system := 77 |};
     data := [] |}.

(** The decoder of the sample sessions.  It knows S1F1, S1F13 and S1F14:
    S1F1 is header only, S1F13 and S1F14 decode from the body of the sample
    messages and raise [ValueError] on any other body, the empty one
    included; for a function it does not know it returns [None]. *)
#[global] Instance sample_codec : SecsCodec := λ packet,
  let body := Byte.to_N <$> data packet in
  if bool_decide (stream (header packet) = 1) then
    if bool_decide (function (header packet) = 1) then Ok (Some SecsS01F01)
    else if bool_decide (function (header packet) = 13) then
      if bool_decide (body = Byte.to_N <$> sample_body 1 13)
      then Ok (Some (SecsS01F13 None)) else Raised ValueError
    else if bool_decide (function (header packet) = 14) then
      if bool_decide (body = Byte.to_N <$> sample_body 1 14)
      then Ok (Some (SecsS01F14 0 (Some []))) else Raised ValueError
    else Ok None
  else Ok None.

Definition host_world : World := new_world (__init__ 45).

(** An equipment: [isHost] cleared, as the equipment classes do. *)
Definition equipment_world : World :=
  new_world {|
    MDLN := "secsgem"; SOFTREV := "0.0.3"; isHost := false;
    communicationState := initial;
    waitCRATimer := None; commDelayTimer := None;
    commDelayTimeout := 10; reportIDCounter := 1000; waitEventList := [];
    callbacks := <["s1f13" := [s01f13_handler]]> {["s1f1" := [s01f01_handler]]};
    T3 := 45 |}.


(** Enabled and selected: waiting for the acknowledge, timer 0 running. *)
Definition wait_cra_world : World :=
  exec [OpEnable; OpSelect] host_world.

(** The handshake timed out at time 45: backing off, timer 1 running. *)
Definition wait_delay_world : World :=
  exec [OpAdvance 45; OpTimer 0%nat] wait_cra_world.

(** Two callers block, then the peer's acknowledge arrives. *)
Definition blocked_world : World :=
  exec [OpWait None; OpWait (Some 5)] wait_cra_world.

Definition communicating_world : World :=
  exec [OpPacket (sample_packet 1 14 false)] blocked_world.

(** ** Further methods *)

(** One round of the retry loop seen from the timers: time passes until the
    timer [t] is due, and its thread runs. *)
Definition expire `{app : GemApplication} `{codec : SecsCodec}
    (t : nat) (w : World) : World :=
  match timer_heap w !! t with
  | Some o =>
      match started o with
      | Some s => exec [OpAdvance (s + Z.max 0 (interval o)); OpTimer t] w
      | None => w
      end
  | None => w
  end.

(** The timer of the state the session is in. *)
Definition current_timer (w : World) : option nat :=
  match current w with
  | WAIT_CRA => waitCRATimer (self w)
  | WAIT_DELAY => commDelayTimer (self w)
  | _ => None
  end.

(** [n] times: the timer of the current state expires. *)
Fixpoint timeouts `{app : GemApplication} `{codec : SecsCodec}
    (n : nat) (w : World) : World :=
  match n with
  | O => w
  | S n' =>
      match current_timer w with
      | Some t => timeouts n' (expire t w)
      | None => w
      end
  end.

(** Does the character [c] occur in [s]? *)
Fixpoint occurs (c : Ascii.ascii) (s : string) : bool :=
  match s with
  | EmptyString => false
  | String c' s' => bool_decide (c' = c) || occurs c s'
  end.

(** The session waits for the acknowledge: it is in WAIT_CRA and its
    handshake timer, created with the interval [T3], runs since [s]. *)
Definition handshake_pending (s : Z) (w : World) : Prop :=
  current w = WAIT_CRA
  ∧ ∃ t,
      waitCRATimer (self w) = Some t
      ∧ timer_heap w !! t =
          Some {| interval := T3 (self w);
                  timer_function := on_wait_cra_timeout;
                  started := Some s; finished := false |}
      ∧ clock w ≤ s + Z.max 0 (T3 (self w)).

(** The S1F13 a handler sends when it enters WAIT_CRA. *)
Definition handshake_request (h : GemHandler) : SecsFunction :=
  SecsS01F13 (if isHost h then None else Some [MDLN h; SOFTREV h]).

(** What the timers and the entry actions never change. *)
Definition same_configuration (h h' : GemHandler) : Prop :=
  isHost h' = isHost h ∧ MDLN h' = MDLN h ∧ SOFTREV h' = SOFTREV h
  ∧ T3 h' = T3 h ∧ commDelayTimeout h' = commDelayTimeout h.

(** * Properties *)

(** ** Tactics for running the monad *)

Ltac decide_states :=
  repeat first
    [ rewrite bool_decide_eq_true_2 by (reflexivity || congruence)
    | rewrite bool_decide_eq_false_2 by (discriminate || congruence) ].

#[local] Arguments secs_decode : simpl never.

Ltac use_decode :=
  repeat match goal with
  | H : secs_decode ?p = _ |- context [secs_decode ?p] => rewrite H
  end.

Ltac mrun :=
  repeat (cbv [mbind M_bind mret M_ret raise pass emit get_self modify_self
               isstate send_response send_stream_function call_secs_decode];
          cbn; decide_states; use_decode).

(** ** The transition table *)

Example next_enable : Fysom.next Event.enable DISABLED = Some NOT_COMMUNICATING.
Proof. reflexivity. Qed.

Example next_select : Fysom.next Event.select NOT_COMMUNICATING = Some WAIT_CRA.
Proof. reflexivity. Qed.

Example next_select_disabled : Fysom.next Event.select DISABLED = None.
Proof. reflexivity. Qed.

Example next_s1f13_wait_delay :
  Fysom.next Event.s1f13received WAIT_DELAY = Some COMMUNICATING.
Proof. reflexivity. Qed.

Example sample_states :
  current wait_cra_world = WAIT_CRA
  ∧ current wait_delay_world = WAIT_DELAY
  ∧ current communicating_world = COMMUNICATING.
Proof. vm_compute. done. Qed.

(** ** The dispatcher *)

(** An exception of the decoder leaves the dispatcher at once, in every
    state: the call is on the trace and nothing else has happened. *)
Lemma packet_decode_raises `{app : GemApplication} `{codec : SecsCodec}
    (packet : HsmsPacket) (w : World) (e : exn) :
  secs_decode packet = Raised e →
  _on_hsms_packet_received packet w =
    (Raised e, with_trace (trace w ++ [SecsDecode packet]) w).
Proof.
  intros Hdec. destruct w as [h th eh c tr].
  unfold _on_hsms_packet_received, with_trace. mrun. reflexivity.
Qed.

Lemma packet_in_wait_delay `{app : GemApplication} `{codec : SecsCodec}
    (packet : HsmsPacket) (w : World) (message : option SecsFunction) :
  current w = WAIT_DELAY →
  secs_decode packet = Ok message →
  _on_hsms_packet_received packet w =
    (Ok (), with_trace
              (trace w ++ [SecsDecode packet; Log INFO;
                           IsState WAIT_CRA false; IsState WAIT_DELAY true]) w).
Proof.
  intros Hs Hdec. destruct w as [h th eh c tr]. unfold current in *. cbn in Hs.
  unfold _on_hsms_packet_received, with_trace. mrun.
  by rewrite <- !app_assoc.
Qed.

(** C9: whatever message is delivered while the session is in WAIT_DELAY,
    [_on_hsms_packet_received] changes nothing but the trace: no event is
    fired, the state stays WAIT_DELAY and nothing is sent.  When the message
    decodes, the call returns normally after the decoding, the log record
    and the two state tests; when the decoder raises, its exception leaves
    the call after the decoding. *)
Theorem wait_delay_drops_every_message `{app : GemApplication}
    `{codec : SecsCodec} (packet : HsmsPacket) (w : World) :
  current w = WAIT_DELAY →
  ∃ r w',
    _on_hsms_packet_received packet w = (r, w')
    ∧ self w' = self w
    ∧ timer_heap w' = timer_heap w
    ∧ event_heap w' = event_heap w
    ∧ match secs_decode packet with
      | Ok _ =>
          r = Ok ()
          ∧ trace_since w w' =
              [SecsDecode packet; Log INFO;
               IsState WAIT_CRA false; IsState WAIT_DELAY true]
      | Raised e => r = Raised e ∧ trace_since w w' = [SecsDecode packet]
      end
    ∧ forallb passive (trace_since w w') = true
    ∧ responses (trace_since w w') = []
    ∧ requests (trace_since w w') = []
    ∧ current w' = WAIT_DELAY.
Proof.
  intros Hs. destruct (secs_decode packet) as [message|e] eqn:Hdec.
  - eexists _, _. split; [by eapply packet_in_wait_delay |].
    unfold trace_since, with_trace, current in *. cbn.
    rewrite drop_app_length. by repeat split.
  - eexists _, _. split; [by apply packet_decode_raises |].
    unfold trace_since, with_trace, current in *. cbn.
    rewrite drop_app_length. by repeat split.
Qed.

Lemma wait_delay_drops_every_message_witness :
  let packet := sample_packet 1 13 true in
  let w := wait_delay_world in
  ∃ r w',
    _on_hsms_packet_received packet w = (r, w')
    ∧ self w' = self w
    ∧ timer_heap w' = timer_heap w
    ∧ event_heap w' = event_heap w
    ∧ match secs_decode packet with
      | Ok _ =>
          r = Ok ()
          ∧ trace_since w w' =
              [SecsDecode packet; Log INFO;
               IsState WAIT_CRA false; IsState WAIT_DELAY true]
      | Raised e => r = Raised e ∧ trace_since w w' = [SecsDecode packet]
      end
    ∧ forallb passive (trace_since w w') = true
    ∧ responses (trace_since w w') = []
    ∧ requests (trace_since w w') = []
    ∧ current w' = WAIT_DELAY.
Proof.
  apply (wait_delay_drops_every_message (sample_packet 1 13 true)
           wait_delay_world).
  vm_compute; reflexivity.
Defined.

Example sample_messages_decode :
  secs_decode (sample_packet 1 13 true) = Ok (Some (SecsS01F13 None))
  ∧ secs_decode (sample_packet 1 14 false) = Ok (Some (SecsS01F14 0 (Some [])))
  ∧ secs_decode (sample_packet 7 7 true) = Ok None
  ∧ secs_decode (truncated_packet 1 13 true) = Raised ValueError
  ∧ secs_decode (truncated_packet 1 14 true) = Raised ValueError.
Proof. vm_compute. done. Qed.

Example wait_delay_truncated_message :
  _on_hsms_packet_received (truncated_packet 1 13 true) wait_delay_world
  = (Raised ValueError,
     with_trace (trace wait_delay_world
                   ++ [SecsDecode (truncated_packet 1 13 true)])
       wait_delay_world).
Proof. vm_compute. reflexivity. Qed.

Example callback_index_s1f13 :
  callback_index_of (header (sample_packet 1 13 true)) = "s1f13".
Proof. vm_compute. reflexivity. Qed.




(** ** Entry and exit actions *)

#[local] Arguments Fysom.next : simpl never.
#[local] Arguments callback_index_of : simpl never.

Ltac eval_next :=
  repeat match goal with
  | |- context [Fysom.next ?ev ?s] =>
      let r := eval vm_compute in (Fysom.next ev s) in
      change (Fysom.next ev s) with r
  end.

Ltac mrun_fire :=
  repeat (cbv [fire onleave onenter _on_state_wait_cra _on_state_wait_delay
               _on_state_leave_wait_cra _on_state_leave_wait_delay
               _on_state_communicating Timer_cancel Timer_start Timer_new
               set_timer_heap];
          mrun; eval_next).

Lemma for_each_Event_set (l : list nat) (w : World) :
  for_each l Event_set w =
    (Ok (), {| self := self w; timer_heap := timer_heap w;
               event_heap := release l (event_heap w); clock := clock w;
               trace := trace w ++ (EventSet <$> l) |}).
Proof.
  revert w. induction l as [|e l IH]; intros [h th eh c tr].
  - cbn. by rewrite app_nil_r.
  - cbn [for_each]. unfold mbind, M_bind, Event_set at 1. mrun.
    rewrite IH. cbn. by rewrite <- app_assoc.
Qed.

Lemma release_lookup (l : list nat) (heap : gmap nat bool) (e : nat) :
  e ∈ l → release l heap !! e = Some true.
Proof.
  revert heap. induction l as [|x l IH] using rev_ind; intros heap Hin.
  - by apply elem_of_nil in Hin.
  - unfold release. rewrite foldl_app. cbn.
    destruct (decide (x = e)) as [->|Hne].
    + apply lookup_insert_eq.
    + rewrite lookup_insert_ne by done. apply IH.
      apply elem_of_app in Hin as [Hin|Hin]; [done|].
      apply list_elem_of_singleton in Hin. congruence.
Qed.

(** C3, as stated, fails: a handshake request whose body is missing makes
    the decoder raise; the session in WAIT_CRA sends no S1F14 and stays in
    WAIT_CRA. *)
Lemma wait_cra_truncated_handshake_request :
  ¬ (∀ (app : GemApplication) (codec : SecsCodec) (packet : HsmsPacket)
       (w : World),
       current w = WAIT_CRA →
       stream (header packet) = 1 →
       function (header packet) = 13 →
       let w' := (_on_hsms_packet_received packet w).2 in
       length (responses (trace_since w w')) = 1%nat
       ∧ current w' = COMMUNICATING).
Proof.
  intros claim.
  destruct (claim GemHandler_on_commack_requested sample_codec
              (truncated_packet 1 13 true) wait_cra_world) as [_ Hstate];
    [vm_compute; reflexivity | reflexivity | reflexivity |].
  vm_compute in Hstate. discriminate Hstate.
Qed.

(** C3, amended: in WAIT_CRA a handshake request (stream 1, function 13)
    that decodes is answered with exactly one reply, an S1F14 sent under the
    request's system bytes whose COMMACK is the value of
    [on_commack_requested] (0 unless the method is overridden) and whose
    DATA is empty for a host and [MDLN, SOFTREV] for an equipment; after
    the reply the handshake timer is cancelled and COMMUNICATING is
    entered. *)
Theorem wait_cra_answers_handshake_request `{app : GemApplication}
    `{codec : SecsCodec} (packet : HsmsPacket) (w : World)
    (message : option SecsFunction) :
  current w = WAIT_CRA →
  stream (header packet) = 1 →
  function (header packet) = 13 →
  secs_decode packet = Ok message →
  let reply :=
    SecsS01F14 (on_commack_requested (self w))
      (Some (if isHost (self w) then [] else [MDLN (self w); SOFTREV (self w)])) in
  ∃ w',
    _on_hsms_packet_received packet w = (Ok (), w')
    ∧ responses (trace_since w w') = [(reply, system (header packet))]
    ∧ requests (trace_since w w') = []
    ∧ trace_since w w' =
        [SecsDecode packet; Log INFO; IsState WAIT_CRA true;
         SendResponse reply (system (header packet))]
        ++ match waitCRATimer (self w) with
           | Some t => [TimerCancel t]
           | None => []
           end
        ++ [Log DEBUG; FireEvent "handler_communicating" true]
        ++ (EventSet <$> waitEventList (self w))
    ∧ current w' = COMMUNICATING
    ∧ @on_commack_requested GemHandler_on_commack_requested (self w) = 0.
Proof.
  intros Hs Hst Hfn Hdec reply. subst reply.
  destruct w as [h th eh c tr]. unfold current in *.
  destruct h as [mdln softrev host st cra delay dt rid wl cbs t3].
  cbn in Hs |- *. subst st.
  assert (Hresp : ∀ l, responses (EventSet <$> l) = []).
  { induction l; [done | by cbn]. }
  assert (Hreq : ∀ l, requests (EventSet <$> l) = []).
  { induction l; [done | by cbn]. }
  destruct host; destruct cra as [t|].
  all: eexists; split;
    [ unfold _on_hsms_packet_received; mrun_fire;
      rewrite for_each_Event_set; cbn; reflexivity | ].
  all: unfold trace_since, responses, requests; cbn;
    rewrite <- !app_assoc, drop_app_length; cbn;
    fold (responses (EventSet <$> wl));
    fold (requests (EventSet <$> wl));
    rewrite Hresp, Hreq; by repeat split.
Qed.

Lemma wait_cra_answers_handshake_request_witness :
  let packet := sample_packet 1 13 true in
  let w := wait_cra_world in
  let reply :=
    SecsS01F14 (on_commack_requested (self w))
      (Some (if isHost (self w) then [] else [MDLN (self w); SOFTREV (self w)])) in
  ∃ w',
    _on_hsms_packet_received packet w = (Ok (), w')
    ∧ responses (trace_since w w') = [(reply, system (header packet))]
    ∧ requests (trace_since w w') = []
    ∧ trace_since w w' =
        [SecsDecode packet; Log INFO; IsState WAIT_CRA true;
         SendResponse reply (system (header packet))]
        ++ match waitCRATimer (self w) with
           | Some t => [TimerCancel t]
           | None => []
           end
        ++ [Log DEBUG; FireEvent "handler_communicating" true]
        ++ (EventSet <$> waitEventList (self w))
    ∧ current w' = COMMUNICATING
    ∧ @on_commack_requested GemHandler_on_commack_requested (self w) = 0.
Proof.
  apply (wait_cra_answers_handshake_request (sample_packet 1 13 true)
           wait_cra_world (Some (SecsS01F13 None))).
  - vm_compute; reflexivity.
  - reflexivity.
  - reflexivity.
  - vm_compute; reflexivity.
Defined.

Example host_handshake_reply :
  responses
    (trace (exec [OpPacket (sample_packet 1 13 true)] wait_cra_world))
  = [(SecsS01F14 0 (Some []), 77)].
Proof. vm_compute. reflexivity. Qed.

Example equipment_handshake_reply :
  responses
    (trace
       (exec [OpEnable; OpSelect; OpPacket (sample_packet 1 13 true)]
          equipment_world))
  = [(SecsS01F14 0 (Some ["secsgem"; "0.0.3"]), 77)].
Proof. vm_compute. reflexivity. Qed.

(** ** The handshake request in WAIT_DELAY *)

Lemma cancelled_not_live (t : nat) (heap : gmap nat Timer) (o : Timer) :
  alter set_finished t heap !! t = Some o → live o = false.
Proof.
  rewrite lookup_alter_eq. destruct (heap !! t) as [o'|]; cbn; [|done].
  intros [= <-]. unfold live. cbn. apply andb_false_r.
Qed.

(** C1, as stated, fails: the session that backs off after a handshake
    timeout receives a handshake request that decodes, and afterwards it is
    still in WAIT_DELAY with its retry-delay timer pending. *)
Lemma wait_delay_handshake_request_no_transition :
  ¬ (∀ (app : GemApplication) (codec : SecsCodec) (packet : HsmsPacket)
       (w : World),
       current w = WAIT_DELAY →
       stream (header packet) = 1 →
       function (header packet) = 13 →
       let w' := (_on_hsms_packet_received packet w).2 in
       current w' = COMMUNICATING
       ∧ ∀ t o, commDelayTimer (self w) = Some t →
                timer_heap w' !! t = Some o → live o = false).
Proof.
  intros claim.
  destruct (claim GemHandler_on_commack_requested sample_codec
              (sample_packet 1 13 true) wait_delay_world) as [Hstate _];
    [vm_compute; reflexivity | reflexivity | reflexivity |].
  vm_compute in Hstate. discriminate Hstate.
Qed.

Example wait_delay_handshake_request_decodes :
  secs_decode (sample_packet 1 13 true) = Ok (Some (SecsS01F13 None))
  ∧ (_on_hsms_packet_received (sample_packet 1 13 true) wait_delay_world).1
    = Ok ()
  ∧ current (_on_hsms_packet_received (sample_packet 1 13 true)
               wait_delay_world).2 = WAIT_DELAY.
Proof. vm_compute. done. Qed.

(** C1, amended: from WAIT_DELAY the event [s1f13received] leads directly to
    COMMUNICATING and cancels the retry-delay timer, which is not live
    afterwards; the dispatcher does not fire the event in WAIT_DELAY, where a
    delivered message, whether it decodes or not, leaves the handler and the
    timers as they are. *)
Theorem s1f13received_from_wait_delay `{app : GemApplication}
    `{codec : SecsCodec} (w : World) :
  current w = WAIT_DELAY →
  (∃ w',
     fire Event.s1f13received w = (Ok (), w')
     ∧ current w' = COMMUNICATING
     ∧ ∀ t, commDelayTimer (self w) = Some t →
            TimerCancel t ∈ trace_since w w'
            ∧ ∀ o, timer_heap w' !! t = Some o → live o = false)
  ∧ ∀ packet,
      let w'' := (_on_hsms_packet_received packet w).2 in
      self w'' = self w
      ∧ timer_heap w'' = timer_heap w
      ∧ current w'' = WAIT_DELAY.
Proof.
  intros Hs. split.
  - destruct w as [h th eh c tr]. unfold current in *.
    destruct h as [mdln softrev host st cra delay dt rid wl cbs t3].
    cbn in Hs |- *. subst st.
    destruct delay as [t|].
    + eexists. split; [| split].
      * mrun_fire. rewrite for_each_Event_set. cbn. reflexivity.
      * reflexivity.
      * intros t' [= <-]. unfold trace_since. cbn. split.
        -- rewrite <- !app_assoc, drop_app_length. set_solver.
        -- intros o. apply cancelled_not_live.
    + eexists. split; [| split].
      * mrun_fire. rewrite for_each_Event_set. cbn. reflexivity.
      * reflexivity.
      * intros t' [=].
  - intros packet w''. subst w''.
    destruct (secs_decode packet) as [message|e] eqn:Hdec.
    + rewrite (packet_in_wait_delay _ _ _ Hs Hdec). by destruct w.
    + rewrite (packet_decode_raises _ _ _ Hdec). by destruct w.
Qed.

Lemma s1f13received_from_wait_delay_witness :
  let w := wait_delay_world in
  (∃ w',
     fire Event.s1f13received w = (Ok (), w')
     ∧ current w' = COMMUNICATING
     ∧ ∀ t, commDelayTimer (self w) = Some t →
            TimerCancel t ∈ trace_since w w'
            ∧ ∀ o, timer_heap w' !! t = Some o → live o = false)
  ∧ ∀ packet,
      let w'' := (_on_hsms_packet_received packet w).2 in
      self w'' = self w
      ∧ timer_heap w'' = timer_heap w
      ∧ current w'' = WAIT_DELAY.
Proof.
  apply (s1f13received_from_wait_delay wait_delay_world).
  vm_compute; reflexivity.
Defined.

(** ** [waitfor_communicating] *)

Lemma filter_absent (e : nat) (l : list nat) :
  e ∉ l → filter (λ x, x ≠ e) l = l.
Proof.
  induction l as [|y l IH]; intros Hnotin; [done|].
  apply not_elem_of_cons in Hnotin as [Hne Hnotin].
  rewrite filter_cons_True by congruence. by rewrite IH.
Qed.

Lemma list_remove_elem (e : nat) (l : list nat) :
  e ∈ l →
  ∃ l', list_remove e l = Some l'
        ∧ length l = S (length l')
        ∧ (NoDup l → (e ∉ l') ∧ l' = filter (λ x, x ≠ e) l).
Proof.
  induction l as [|y l IH]; intros Hin; [by apply elem_of_nil in Hin|].
  cbn [list_remove]. destruct (decide (y = e)) as [->|Hne].
  - exists l. split; [done|]. split; [done|].
    intros Hnd. apply NoDup_cons in Hnd as [Hnotin Hnd]. split; [done|].
    rewrite filter_cons_False by (intros ?; congruence).
    by rewrite filter_absent.
  - apply elem_of_cons in Hin as [->|Hin]; [done|].
    destruct (IH Hin) as (l' & -> & Hlen & Hrest).
    exists (y :: l'). split; [done|]. split; [cbn; by rewrite Hlen|].
    intros Hnd. apply NoDup_cons in Hnd as [Hnotin Hnd].
    destruct (Hrest Hnd) as [Hnot ->]. split.
    + rewrite not_elem_of_cons. split; [congruence | done].
    + by rewrite filter_cons_True.
Qed.

Lemma list_remove_snoc_fresh (e : nat) (l : list nat) :
  e ∉ l → list_remove e (l ++ [e]) = Some l.
Proof.
  induction l as [|y l IH]; intros Hnotin; cbn.
  - by rewrite decide_True.
  - apply not_elem_of_cons in Hnotin as [Hne Hnotin].
    rewrite decide_False by congruence. by rewrite IH.
Qed.

(** C2, as stated, fails: on a new handler the call registers its event
    (first action) and tests the state after that (second action). *)
Lemma waitfor_communicating_registers_before_test :
  ¬ (∀ (app : GemApplication) (timeout : option Z) (w : World),
       let tr := trace_since w (waitfor_communicating timeout w).2 in
       ∀ j, position is_registration tr = Some j →
            ∃ i, position (is_state_test COMMUNICATING) tr = Some i
                 ∧ (i < j)%nat).
Proof.
  intros claim.
  destruct (claim GemHandler_on_commack_requested None host_world 0%nat)
    as (i & Hi & Hlt); [vm_compute; reflexivity |].
  lia.
Qed.

(** C2, amended: [waitfor_communicating] registers the caller's event in the
    wait list first and tests the state after that: the registration is the
    first action of the call and the test for COMMUNICATING the second.
    When the test succeeds the entry is removed again and the call returns
    true at once; when it fails the caller blocks on the event. *)
Theorem waitfor_communicating_test_after_registration `{app : GemApplication}
    (timeout : option Z) (w : World) :
  let e := fresh (dom (event_heap w)) in
  let communicating := bool_decide (current w = COMMUNICATING) in
  ∃ w',
    waitfor_communicating timeout w
      = (Ok (e, if communicating then Some true else None), w')
    ∧ trace_since w w' =
        [WaitListAppend e; IsState COMMUNICATING communicating;
         if communicating then WaitListRemove e else EventWait e timeout]
    ∧ position is_registration (trace_since w w') = Some 0%nat
    ∧ position (is_state_test COMMUNICATING) (trace_since w w') = Some 1%nat.
Proof.
  intros e communicating. subst e communicating.
  destruct w as [h th eh c tr]. unfold current.
  destruct h as [mdln softrev host st cra delay dt rid wl cbs t3]. cbn.
  destruct (list_remove_elem (fresh (dom eh)) (wl ++ [fresh (dom eh)]))
    as (l' & Hrm & _); [set_solver|].
  destruct (decide (st = COMMUNICATING)) as [->|Hne].
  - eexists. split.
    { unfold waitfor_communicating, waitEventList_append,
        waitEventList_remove, Event_new, set_event_heap.
      mrun. rewrite Hrm. mrun. reflexivity. }
    unfold trace_since. cbn. rewrite <- !app_assoc, drop_app_length.
    by repeat split.
  - eexists. split.
    { unfold waitfor_communicating, waitEventList_append,
        waitEventList_remove, Event_new, set_event_heap.
      mrun. reflexivity. }
    unfold trace_since. cbn. rewrite <- !app_assoc, drop_app_length.
    rewrite bool_decide_eq_false_2 by done.
    by repeat split.
Qed.

(** ** Timers and the states that own them *)

Lemma live_set_finished (o : Timer) : live (set_finished o) = false.
Proof. unfold live. cbn. apply andb_false_r. Qed.

Lemma no_live_owned (s : state) (cra delay : option nat) (heap : gmap nat Timer) :
  no_live heap → owned s cra delay heap.
Proof.
  intros Hno t o Hlook Hlive. specialize (Hno t o Hlook). cbn in Hno. congruence.
Qed.

Lemma owned_no_owner (s : state) (cra delay : option nat) (heap : gmap nat Timer) :
  owned s cra delay heap → (∀ t, ¬ owns s cra delay t) → no_live heap.
Proof.
  intros Hown Hnone t o Hlook. cbn.
  destruct (live o) eqn:Hlive; [|done].
  destruct (Hnone t (Hown t o Hlook Hlive)).
Qed.

Lemma owned_finish (s : state) (cra delay : option nat) (heap : gmap nat Timer)
    (t : nat) :
  owned s cra delay heap → owned s cra delay (alter set_finished t heap).
Proof.
  intros Hown t' o Hlook Hlive.
  destruct (decide (t = t')) as [->|Hne].
  - rewrite lookup_alter_eq in Hlook.
    destruct (heap !! t') as [o'|]; [|done]. cbn in Hlook.
    injection Hlook as <-. by rewrite live_set_finished in Hlive.
  - rewrite lookup_alter_ne in Hlook by done. by apply (Hown t' o).
Qed.

Lemma owned_cancel (s : state) (cra delay : option nat) (heap : gmap nat Timer)
    (t : nat) :
  owned s cra delay heap → (∀ t', owns s cra delay t' → t' = t) →
  no_live (alter set_finished t heap).
Proof.
  intros Hown Honly t' o Hlook. cbn.
  destruct (decide (t = t')) as [->|Hne].
  - rewrite lookup_alter_eq in Hlook.
    destruct (heap !! t') as [o'|]; [|done]. cbn in Hlook.
    injection Hlook as <-. apply live_set_finished.
  - rewrite lookup_alter_ne in Hlook by done.
    destruct (live o) eqn:Hlive; [|done].
    destruct Hne. symmetry. apply Honly. by apply (Hown t' o).
Qed.

Lemma no_live_new (s : state) (cra delay : option nat) (heap : gmap nat Timer)
    (t : nat) (o : Timer) (now : Z) :
  no_live heap → owns s cra delay t →
  owned s cra delay (alter (set_started now) t (<[t := o]> heap)).
Proof.
  intros Hno Howns t' o' Hlook Hlive.
  destruct (decide (t = t')) as [->|Hne]; [done|].
  rewrite lookup_alter_ne, lookup_insert_ne in Hlook by done.
  specialize (Hno t' o' Hlook). cbn in Hno. congruence.
Qed.

Ltac no_owner := intros ? [[? ?]|[? ?]]; congruence.

Ltac get_no_live Hown :=
  first [ apply (owned_cancel _ _ _ _ _ Hown); no_owner
        | apply (owned_no_owner _ _ _ _ Hown); no_owner ].

Ltac solve_owned :=
  let Hown := fresh "Hown" in
  intros Hown;
  first [ exact Hown
        | apply no_live_new; [get_no_live Hown | (left + right); done]
        | apply no_live_owned; get_no_live Hown ].

Lemma Forall_EventSet (l : list nat) :
  Forall (λ a, touches_waitlist a = false) (EventSet <$> l).
Proof. apply Forall_fmap, Forall_true. done. Qed.

Ltac solve_trace :=
  first [ by (exists []; rewrite app_nil_r)
        | rewrite <- ?app_assoc; eexists; split; [reflexivity|];
          repeat first [ apply Forall_nil_2 | apply Forall_EventSet
                       | apply Forall_app_2 | apply Forall_cons_2; [done|] ] ].

Lemma fire_spec `{app : GemApplication} (ev : Event.t) (w : World) :
  let w' := (fire ev w).2 in
  current w' = default (current w) (Fysom.next ev (current w))
  ∧ waitEventList (self w') = waitEventList (self w)
  ∧ (event_heap w' = event_heap w
     ∨ event_heap w' = release (waitEventList (self w)) (event_heap w))
  ∧ (∃ δ, trace w' = trace w ++ δ ∧ Forall (λ a, touches_waitlist a = false) δ)
  ∧ (timers_wf w → timers_wf w').
Proof.
  destruct w as [h th eh c tr]. unfold current, timers_wf.
  destruct h as [mdln softrev host st cra delay dt rid wl cbs t3]. cbn.
  destruct st, ev.
  all: mrun_fire.
  all: repeat (match goal with
               | |- context [match ?x with _ => _ end] => is_var x; destruct x
               end; mrun_fire).
  all: rewrite ?for_each_Event_set; cbn.
  all: split; [reflexivity|]; split; [reflexivity|].
  all: split; [(left + right); reflexivity|].
  all: split; [solve_trace|].
  all: solve_owned.
Qed.

(** ** How the methods let a session evolve *)

Lemma keeps_refl (e : nat) (w : World) : keeps e w w.
Proof.
  intros Hin. split; [done|]. exists []. by rewrite app_nil_r.
Qed.

Lemma evolves_refl (oe : option nat) (w : World) : evolves oe w w.
Proof.
  split; [done|]. split; [done|]. intros Hwf. split; [done|].
  intros e _. apply keeps_refl.
Qed.

Lemma evolves_trans (oe : option nat) (w1 w2 w3 : World) :
  evolves oe w1 w2 → evolves oe w2 w3 → evolves oe w1 w3.
Proof.
  intros (Hr1 & Ht1 & Hw1) (Hr2 & Ht2 & Hw2).
  split; [by etrans|]. split; [auto|].
  intros Hwf. destruct (Hw1 Hwf) as [Hwf2 Hk1].
  destruct (Hw2 Hwf2) as [Hwf3 Hk2]. split; [done|].
  intros e He Hin.
  destruct (Hk1 e He Hin) as (Hin2 & δ1 & Htr1 & Hall1).
  destruct (Hk2 e He Hin2) as (Hin3 & δ2 & Htr2 & Hall2).
  split; [done|]. exists (δ1 ++ δ2).
  split; [by rewrite Htr2, Htr1, app_assoc | by apply Forall_app_2].
Qed.

(** A step that only writes to the trace. *)
Lemma evolves_trace_only (oe : option nat) (w w' : World) (δ : list action) :
  self w' = self w → timer_heap w' = timer_heap w →
  event_heap w' = event_heap w → trace w' = trace w ++ δ →
  (∀ e, oe = Some e → Forall (λ a, is_removal e a = false) δ) →
  evolves oe w w'.
Proof.
  intros Hself Hth Heh Htr Hall.
  unfold evolves, timers_wf, waitlist_wf, keeps, current.
  rewrite Hself, Hth, Heh. split; [done|]. split; [done|].
  intros Hwf. split; [done|]. intros e He Hin. split; [done|].
  exists δ. split; [done|]. by apply Hall.
Qed.

Lemma respects_ret (oe : option nat) {A} (a : A) : respects oe (mret a : M A).
Proof. intros w. apply evolves_refl. Qed.

Lemma respects_pass (oe : option nat) : respects oe pass.
Proof. intros w. apply evolves_refl. Qed.

Lemma respects_raise (oe : option nat) {A} (e : exn) : respects oe (@raise A e).
Proof. intros w. apply evolves_refl. Qed.

Lemma respects_get_self (oe : option nat) : respects oe get_self.
Proof. intros w. apply evolves_refl. Qed.

Lemma respects_bind (oe : option nat) {A B} (m : M A) (k : A → M B) :
  respects oe m → (∀ a, respects oe (k a)) → respects oe (m ≫= k).
Proof.
  intros Hm Hk w. specialize (Hm w).
  unfold mbind, M_bind. destruct (m w) as [[a|e] w1]; cbn in *; [|done].
  eapply evolves_trans; [done | apply Hk].
Qed.

Lemma respects_emit (oe : option nat) (a : action) :
  (∀ e, oe = Some e → is_removal e a = false) → respects oe (emit a).
Proof.
  intros Ha [h th eh c tr]. eapply (evolves_trace_only _ _ _ [a]); try done.
  intros e He. apply Forall_singleton. by apply Ha.
Qed.

Lemma respects_isstate (oe : option nat) (s : state) : respects oe (isstate s).
Proof.
  unfold isstate. apply respects_bind; [apply respects_get_self|]. intros h.
  apply respects_bind; [by apply respects_emit | intros ?; apply respects_ret].
Qed.

Lemma release_is_Some (l : list nat) (heap : gmap nat bool) (e : nat) :
  is_Some (heap !! e) → is_Some (release l heap !! e).
Proof.
  revert heap. induction l as [|x l IH]; intros heap Hsome; [done|].
  cbn. apply IH. destruct (decide (x = e)) as [->|Hne].
  - rewrite lookup_insert_eq. by eexists.
  - by rewrite lookup_insert_ne.
Qed.

Lemma untouched_not_removed (e : nat) (δ : list action) :
  Forall (λ a, touches_waitlist a = false) δ →
  Forall (λ a, is_removal e a = false) δ.
Proof.
  intros Hall. eapply Forall_impl; [exact Hall|]. intros a Ha. by destruct a.
Qed.

Lemma respects_fire `{app : GemApplication} (oe : option nat) (ev : Event.t) :
  respects oe (fire ev).
Proof.
  intros w. destruct (fire_spec ev w) as (Hcur & Hl & Heh & (δ & Htr & Hδ) & Ht).
  split; [| split; [done|]].
  - rewrite Hcur. destruct (Fysom.next ev (current w)) as [s'|] eqn:Hn; cbn.
    + apply rtc_once. by exists ev.
    + done.
  - intros [Hnd Hall]. split.
    + split; rewrite Hl; [done|].
      destruct Heh as [-> | ->]; [done|].
      eapply Forall_impl; [exact Hall|]. intros e. apply release_is_Some.
    + intros e _ Hin. rewrite Hl. split; [done|].
      exists δ. split; [done | by apply untouched_not_removed].
Qed.

Ltac respects_step :=
  first [ apply respects_fire | apply respects_isstate | apply respects_get_self
        | apply respects_pass | apply respects_ret
        | apply respects_emit; done
        | apply respects_bind; [| intros ?] ].

Lemma respects_enable `{app : GemApplication} (oe : option nat) :
  respects oe enable.
Proof. unfold enable. repeat respects_step. Qed.

Lemma respects_disable `{app : GemApplication} (oe : option nat) :
  respects oe disable.
Proof. unfold disable. repeat respects_step. Qed.

Lemma respects_on_connection_closed `{app : GemApplication} (oe : option nat) :
  respects oe on_connection_closed.
Proof. unfold on_connection_closed. repeat respects_step. Qed.

Lemma respects_packet `{app : GemApplication}
    `{codec : SecsCodec} (oe : option nat)
    (packet : HsmsPacket) :
  respects oe (_on_hsms_packet_received packet).
Proof.
  unfold _on_hsms_packet_received, call_secs_decode, send_response.
  repeat first [ respects_step
               | apply respects_raise
               | match goal with
                 | |- respects _ (match secs_decode ?p with _ => _ end) =>
                     destruct (secs_decode p)
                 end
               | match goal with
                 | |- respects _ (if ?b then _ else _) => destruct b
                 end ].
Qed.

Lemma respects_Timer_run `{app : GemApplication} (oe : option nat) (t : nat) :
  respects oe (Timer_run t).
Proof.
  intros w. unfold Timer_run.
  destruct (timer_heap w !! t) as [o|]; [| apply evolves_refl].
  destruct (started o) as [s|]; [| apply evolves_refl].
  destruct (finished o); [apply evolves_refl|].
  case_bool_decide as Hdue; [| apply evolves_refl]. clear Hdue.
  revert w. apply respects_bind.
  - destruct (timer_function o); apply respects_fire.
  - intros _ [h th eh c tr]. split; [done|]. split.
    + unfold timers_wf, current. cbn. apply owned_finish.
    + intros Hwf. split; [done|]. intros e _ Hin. split; [done|].
      exists []. cbn. by rewrite app_nil_r.
Qed.

Lemma respects_advance (oe : option nat) (t : Z) : respects oe (advance t).
Proof.
  intros [h th eh c tr]. by apply (evolves_trace_only _ _ _ []); rewrite ?app_nil_r.
Qed.

(** ** The wait list *)

Lemma list_remove_absent (e : nat) (l : list nat) :
  e ∉ l → list_remove e l = None.
Proof.
  induction l as [|y l IH]; intros Hnotin; [done|].
  apply not_elem_of_cons in Hnotin as [Hne Hnotin]. cbn.
  rewrite decide_False by congruence. by rewrite IH.
Qed.

Lemma fresh_event_not_registered (w : World) :
  waitlist_wf w → fresh (dom (event_heap w)) ∉ waitEventList (self w).
Proof.
  intros [_ Hall] Hin.
  rewrite Forall_forall in Hall. apply Hall in Hin.
  apply elem_of_dom in Hin. by apply is_fresh in Hin.
Qed.

(** The call up to its return or to the point where it blocks. *)
Lemma waitfor_communicating_spec `{app : GemApplication}
    (timeout : option Z) (w : World) :
  let e := fresh (dom (event_heap w)) in
  let communicating := bool_decide (current w = COMMUNICATING) in
  ∃ w1 l',
    waitfor_communicating timeout w
      = (Ok (e, if communicating then Some true else None), w1)
    ∧ list_remove e (waitEventList (self w) ++ [e]) = Some l'
    ∧ self w1 =
        set_waitEventList
          (if communicating then l' else waitEventList (self w) ++ [e]) (self w)
    ∧ timer_heap w1 = timer_heap w
    ∧ event_heap w1 = <[e := false]> (event_heap w)
    ∧ trace w1 = trace w ++
        [WaitListAppend e; IsState COMMUNICATING communicating;
         if communicating then WaitListRemove e else EventWait e timeout].
Proof.
  intros e communicating. subst e communicating.
  destruct w as [h th eh c tr]. unfold current.
  destruct h as [mdln softrev host st cra delay dt rid wl cbs t3]. cbn.
  destruct (list_remove_elem (fresh (dom eh)) (wl ++ [fresh (dom eh)]))
    as (l' & Hrm & _); [set_solver|].
  destruct (decide (st = COMMUNICATING)) as [->|Hne].
  - eexists _, l'. split.
    { unfold waitfor_communicating, waitEventList_append,
        waitEventList_remove, Event_new, set_event_heap.
      mrun. rewrite Hrm. mrun. reflexivity. }
    cbn. rewrite <- !app_assoc. by repeat split.
  - eexists _, l'. split.
    { unfold waitfor_communicating, waitEventList_append,
        waitEventList_remove, Event_new, set_event_heap.
      mrun. reflexivity. }
    rewrite bool_decide_eq_false_2 by done.
    cbn. rewrite <- !app_assoc. by repeat split.
Qed.

(** The call from the return of [event.wait] on. *)
Lemma waitfor_communicating_resume_spec `{app : GemApplication}
    (e : nat) (w : World) :
  match list_remove e (waitEventList (self w)) with
  | Some l' =>
      ∃ w3,
        waitfor_communicating_resume e w
          = (Ok (default false (event_heap w !! e)), w3)
        ∧ self w3 = set_waitEventList l' (self w)
        ∧ timer_heap w3 = timer_heap w
        ∧ event_heap w3 = event_heap w
        ∧ trace w3 = trace w ++ [WaitListRemove e]
  | None => waitfor_communicating_resume e w = (Raised ValueError, w)
  end.
Proof.
  destruct w as [h th eh c tr]. cbn.
  destruct (list_remove e (waitEventList h)) as [l'|] eqn:Hrm.
  - eexists. split.
    { unfold waitfor_communicating_resume, waitEventList_remove,
        Event_wait_result. mrun. rewrite Hrm. mrun. reflexivity. }
    by repeat split.
  - unfold waitfor_communicating_resume, waitEventList_remove,
      Event_wait_result. mrun. rewrite Hrm. mrun. reflexivity.
Qed.

Lemma is_removal_other (e e' : nat) :
  e' ≠ e → is_removal e (WaitListRemove e') = false.
Proof. intros Hne. cbn. by apply bool_decide_eq_false_2. Qed.

Lemma respects_waitfor_communicating `{app : GemApplication}
    (oe : option nat) (timeout : option Z) :
  respects oe (waitfor_communicating timeout).
Proof.
  intros w.
  pose proof (fresh_event_not_registered w) as Hfresh.
  destruct (waitfor_communicating_spec timeout w)
    as (w1 & l' & Hrun & Hrm & Hself & Hth & Heh & Htr).
  rewrite Hrun. cbn [snd]. clear Hrun.
  destruct w as [h th eh c tr]. destruct w1 as [h1 th1 eh1 c1 tr1].
  destruct h as [mdln softrev host st cra delay dt rid wl cbs t3].
  unfold evolves, timers_wf, waitlist_wf, keeps, current in *.
  cbn [self timer_heap event_heap trace communicationState waitEventList
       waitCRATimer commDelayTimer set_waitEventList] in *.
  subst h1 th1 eh1 tr1.
  destruct (bool_decide (st = COMMUNICATING));
    cbn [self timer_heap event_heap trace communicationState waitEventList
         waitCRATimer commDelayTimer set_waitEventList].
  all: split; [done|]; split; [done|]; intros [Hnd Hall].
  all: specialize (Hfresh (conj Hnd Hall)).
  all: assert (Hall' : Forall (λ e, is_Some (<[fresh (dom eh) := false]> eh !! e)) wl)
    by (eapply Forall_impl; [exact Hall|]; intros e Hsome; cbn beta in Hsome |- *;
        destruct (decide (fresh (dom eh) = e)) as [Heq|Hne];
        [rewrite Heq, lookup_insert_eq; by eexists | by rewrite lookup_insert_ne]).
  - rewrite (list_remove_snoc_fresh _ _ Hfresh) in Hrm. injection Hrm as <-.
    split; [done|]. intros e _ Hin. split; [done|]. eexists. split; [done|].
    repeat apply Forall_cons_2; try done.
    apply is_removal_other. intros Heq. by rewrite Heq in Hfresh.
  - split.
    + split.
      * apply NoDup_app. split; [done|]. split; [| apply NoDup_singleton].
        intros x Hx Hx'. apply list_elem_of_singleton in Hx'. by subst.
      * apply Forall_app_2; [done|]. apply Forall_singleton.
        rewrite lookup_insert_eq. by eexists.
    + intros e _ Hin. split; [set_solver|]. eexists. split; [done|].
      by repeat apply Forall_cons_2.
Qed.

Lemma respects_waitfor_communicating_resume `{app : GemApplication}
    (oe : option nat) (e' : nat) :
  oe ≠ Some e' → respects oe (waitfor_communicating_resume e').
Proof.
  intros Hoe w. pose proof (waitfor_communicating_resume_spec e' w) as Hspec.
  destruct (list_remove e' (waitEventList (self w))) as [l'|] eqn:Hrm.
  - destruct Hspec as (w3 & Hrun & Hself & Hth & Heh & Htr).
    rewrite Hrun. cbn [snd].
    assert (Hin' : e' ∈ waitEventList (self w)).
    { destruct (decide (e' ∈ waitEventList (self w))) as [|Hnotin]; [done|].
      apply list_remove_absent in Hnotin. congruence. }
    destruct (list_remove_elem e' _ Hin') as (l'' & Hrm' & _ & Hnodup).
    rewrite Hrm in Hrm'. injection Hrm' as <-.
    unfold evolves, timers_wf, waitlist_wf, keeps, current.
    rewrite Hself, Hth, Heh, Htr.
    destruct (self w) as [mdln softrev host st cra delay dt rid wl cbs t3].
    cbn in *. split; [done|]. split; [done|].
    intros [Hnd Hall]. destruct (Hnodup Hnd) as [Hgone ->]. split.
    + split; [by apply NoDup_filter|].
      rewrite Forall_forall in Hall. apply Forall_forall. intros x Hx.
      apply list_elem_of_filter in Hx as [_ Hx]. by apply Hall.
    + intros e He Hin. split.
      * apply list_elem_of_filter. split; [congruence | done].
      * eexists. split; [done|]. apply Forall_singleton.
        apply is_removal_other. congruence.
  - rewrite Hspec. apply evolves_refl.
Qed.

Lemma respects_run_op `{app : GemApplication}
    `{codec : SecsCodec} (oe : option nat) (o : op) :
  (∀ e, oe = Some e → o ≠ OpResume e) → respects oe (run_op o).
Proof.
  intros Hoe. destruct o; cbn [run_op].
  - apply respects_enable.
  - apply respects_disable.
  - apply respects_packet.
  - apply respects_fire.
  - apply respects_on_connection_closed.
  - apply respects_bind; [apply respects_waitfor_communicating|].
    intros ?. apply respects_ret.
  - apply respects_bind; [| intros ?; apply respects_ret].
    apply respects_waitfor_communicating_resume. intros ->.
    by apply (Hoe event).
  - apply respects_Timer_run.
  - apply respects_advance.
Qed.

(** Every run lets the session evolve; an entry of the wait list stays in
    place as long as its own call does not resume. *)
Lemma exec_evolves `{app : GemApplication}
    `{codec : SecsCodec} (oe : option nat) (ops : list op)
    (w : World) :
  (∀ e, oe = Some e → OpResume e ∉ ops) → evolves oe w (exec ops w).
Proof.
  revert w. induction ops as [|o ops IH]; intros w Hoe.
  - apply evolves_refl.
  - cbn. eapply evolves_trans.
    + apply (respects_run_op oe o). intros e He ->.
      apply (Hoe e He). by left.
    + apply IH. intros e He Hin. apply (Hoe e He). by right.
Qed.

(** ** States that are never reached *)

Lemma next_avoids_host_initiated (ev : Event.t) (s s' : state) :
  Fysom.next ev s = Some s' →
  s' ≠ HOST_INITIATED_CONNECT ∧ s' ≠ WAIT_CR_FROM_HOST.
Proof.
  destruct s, ev; vm_compute; intros [=]; subst; split; discriminate.
Qed.

Lemma rtc_avoids_host_initiated (s s' : state) :
  rtc fysom_step s s' →
  s ≠ HOST_INITIATED_CONNECT ∧ s ≠ WAIT_CR_FROM_HOST →
  s' ≠ HOST_INITIATED_CONNECT ∧ s' ≠ WAIT_CR_FROM_HOST.
Proof.
  induction 1 as [|s s1 s2 [ev Hstep] _ IH]; [done|].
  intros _. apply IH. by eapply next_avoids_host_initiated.
Qed.

(** C10: no entry of the table has the destination HOST_INITIATED_CONNECT;
    so no sequence of events fired from the initial state DISABLED reaches
    HOST_INITIATED_CONNECT or WAIT_CR_FROM_HOST, whenever [s1f13received]
    fires its source is WAIT_CRA or WAIT_DELAY, and no run of a handler that
    starts in the initial state is ever in one of the two states. *)
Theorem host_initiated_connect_unreachable :
  Forall (λ tr, dst tr ≠ HOST_INITIATED_CONNECT) events
  ∧ (∀ evs,
       run_events evs initial ≠ HOST_INITIATED_CONNECT
       ∧ run_events evs initial ≠ WAIT_CR_FROM_HOST)
  ∧ (∀ evs s',
       Fysom.next Event.s1f13received (run_events evs initial) = Some s' →
       run_events evs initial = WAIT_CRA ∨ run_events evs initial = WAIT_DELAY)
  ∧ (∀ (app : GemApplication) (codec : SecsCodec)
       (h : GemHandler) (ops : list op),
       let w := exec ops (new_world (set_communicationState initial h)) in
       current w ≠ HOST_INITIATED_CONNECT ∧ current w ≠ WAIT_CR_FROM_HOST).
Proof.
  assert (Hrun : ∀ evs,
            run_events evs initial ≠ HOST_INITIATED_CONNECT
            ∧ run_events evs initial ≠ WAIT_CR_FROM_HOST).
  { induction evs as [|ev evs IH] using rev_ind; [by split|].
    unfold run_events in *. rewrite foldl_app. cbn [foldl].
    destruct (Fysom.next ev (foldl _ initial evs)) as [s'|] eqn:Hn; cbn.
    - by eapply next_avoids_host_initiated.
    - done. }
  split; [| split; [done|]; split].
  - unfold events. repeat constructor; discriminate.
  - intros evs s' Hn. destruct (Hrun evs) as [_ Hne].
    destruct (run_events evs initial); vm_compute in Hn; try discriminate;
      auto. done.
  - intros app codec h ops w. subst w.
    pose proof (exec_evolves None ops
                  (new_world (set_communicationState initial h))) as (Hrtc & _).
    { intros e [=]. }
    apply (rtc_avoids_host_initiated _ _ Hrtc). by split.
Qed.

(** ** Entering COMMUNICATING *)

Lemma released_caller_returns_true `{app : GemApplication} (e : nat) (w : World) :
  e ∈ waitEventList (self w) → event_heap w !! e = Some true →
  ∃ w', waitfor_communicating_resume e w = (Ok true, w').
Proof.
  intros Hin Hset. pose proof (waitfor_communicating_resume_spec e w) as Hspec.
  destruct (list_remove_elem e _ Hin) as (l' & Hrm & _).
  rewrite Hrm, Hset in Hspec. destruct Hspec as (w' & Hrun & _). by exists w'.
Qed.

(** C7: every transition into COMMUNICATING, after the exit action of the
    state left (at most the cancelling of its timer), fires the event
    ["handler_communicating"] and then sets every event of the wait list, in
    the order of the list; the list itself is unchanged, each of its events
    is set afterwards, and a caller blocked on one of them returns true. *)
Theorem entering_communicating_releases_waiters `{app : GemApplication}
    (ev : Event.t) (w w' : World) :
  fire ev w = (Ok (), w') →
  current w' = COMMUNICATING →
  (∃ cancelled,
     trace_since w w' =
       cancelled
       ++ [Log DEBUG; FireEvent "handler_communicating" true]
       ++ (EventSet <$> waitEventList (self w))
     ∧ Forall (λ a, ∃ t, a = TimerCancel t) cancelled)
  ∧ waitEventList (self w') = waitEventList (self w)
  ∧ ∀ e, e ∈ waitEventList (self w) →
      event_heap w' !! e = Some true
      ∧ ∃ w'', waitfor_communicating_resume e w' = (Ok true, w'').
Proof.
  intros Hfire Hcur.
  assert (Hmain :
    (∃ cancelled,
       trace_since w w' =
         cancelled
         ++ [Log DEBUG; FireEvent "handler_communicating" true]
         ++ (EventSet <$> waitEventList (self w))
       ∧ Forall (λ a, ∃ t, a = TimerCancel t) cancelled)
    ∧ waitEventList (self w') = waitEventList (self w)
    ∧ event_heap w' = release (waitEventList (self w)) (event_heap w)).
  { destruct w as [h th eh c tr]. unfold current, trace_since in *.
    destruct h as [mdln softrev host st cra delay dt rid wl cbs t3].
    cbn [trace self waitEventList event_heap] in *.
    destruct st, ev; revert Hfire; mrun_fire.
    all: try (intros [=]; subst; cbn in Hcur; discriminate Hcur).
    all: repeat (match goal with
                 | |- context [match ?x with _ => _ end] => is_var x; destruct x
                 end; mrun_fire).
    all: rewrite ?for_each_Event_set;
      cbn [trace self waitEventList event_heap timer_heap clock].
    all: intros [= <-]; try (cbn in Hcur; discriminate Hcur).
    all: cbn [trace self waitEventList event_heap set_communicationState].
    all: rewrite <- ?app_assoc, drop_app_length.
    all: split; [| by split].
    all: first [ by (exists []; split; [reflexivity | constructor])
               | eexists [_]; split; [reflexivity|];
                 apply Forall_singleton; by eexists ]. }
  destruct Hmain as (Htrace & Hlist & Hheap).
  split; [done|]. split; [done|].
  intros e Hin.
  assert (Hset : event_heap w' !! e = Some true).
  { rewrite Hheap. by apply release_lookup. }
  split; [done|]. apply released_caller_returns_true; [|done].
  by rewrite Hlist.
Qed.

Lemma entering_communicating_releases_waiters_witness :
  let w := blocked_world in
  let w' := (fire Event.s1f14received blocked_world).2 in
  (∃ cancelled,
     trace_since w w' =
       cancelled
       ++ [Log DEBUG; FireEvent "handler_communicating" true]
       ++ (EventSet <$> waitEventList (self w))
     ∧ Forall (λ a, ∃ t, a = TimerCancel t) cancelled)
  ∧ waitEventList (self w') = waitEventList (self w)
  ∧ ∀ e, e ∈ waitEventList (self w) →
      event_heap w' !! e = Some true
      ∧ ∃ w'', waitfor_communicating_resume e w' = (Ok true, w'').
Proof.
  apply (entering_communicating_releases_waiters Event.s1f14received
           blocked_world).
  - vm_compute; reflexivity.
  - vm_compute; reflexivity.
Defined.

Example blocked_world_waiters : waitEventList (self blocked_world) = [0; 1]%nat.
Proof. vm_compute. reflexivity. Qed.

(** ** Disabling *)

(** In every run of a new handler, whatever its configuration, each live
    timer is the one owned by the current state. *)
Lemma exec_timers_ok `{app : GemApplication}
    `{codec : SecsCodec} (h : GemHandler) (ops : list op) :
  timers_ok (exec ops (new_world h)) = true.
Proof.
  apply bool_decide_eq_true.
  destruct (exec_evolves None ops (new_world h)) as (_ & Htimers & _).
  { intros e [=]. }
  apply Htimers. unfold timers_wf, owned. cbn. apply map_Forall_empty.
Qed.

(** C5: in every state other than DISABLED, [disable] returns normally with
    the machine in DISABLED; the timer owned by the state left (the
    handshake timer in WAIT_CRA, the retry-delay timer in WAIT_DELAY) is
    cancelled by the exit action, and no timer is live afterwards.  The
    premise on the timers holds in every run of a handler
    ([exec_timers_ok]). *)
Theorem disable_leaves_no_live_timer `{app : GemApplication} (w : World) :
  current w ≠ DISABLED →
  timers_ok w = true →
  ∃ w',
    disable w = (Ok (), w')
    ∧ current w' = DISABLED
    ∧ (∀ t, owns (current w) (waitCRATimer (self w)) (commDelayTimer (self w)) t →
            trace_since w w' = [ConnectionDisable; TimerCancel t; Log INFO])
    ∧ (∀ t o, timer_heap w' !! t = Some o → live o = false)
    ∧ timers_ok w' = true.
Proof.
  intros Hactive Hok. apply bool_decide_eq_true in Hok.
  destruct w as [h th eh c tr]. unfold timers_wf, trace_since in *.
  unfold current in *.
  destruct h as [mdln softrev host st cra delay dt rid wl cbs t3].
  cbn [trace self timer_heap communicationState waitCRATimer commDelayTimer]
    in *.
  assert (Hfinal : ∀ heap, no_live heap →
            (∀ t o, heap !! t = Some o → live o = false)
            ∧ bool_decide (owned DISABLED cra delay heap) = true).
  { intros heap Hno. split; [exact Hno|].
    apply bool_decide_eq_true. by apply no_live_owned. }
  destruct st; try done.
  all: unfold disable; mrun_fire.
  all: repeat (match goal with
               | |- context [match ?x with _ => _ end] => is_var x; destruct x
               end; mrun_fire).
  all: eexists; split; [reflexivity|]; split; [reflexivity|].
  all: cbn [trace self timer_heap communicationState waitCRATimer
            commDelayTimer set_communicationState].
  all: unfold timers_ok, timers_wf, current;
    cbn [trace self timer_heap communicationState waitCRATimer
         commDelayTimer set_communicationState].
  all: rewrite <- ?app_assoc, drop_app_length.
  all: split;
    [ intros t [[? Ht]|[? Ht]]; try discriminate; injection Ht as <-;
      reflexivity
    | apply Hfinal; get_no_live Hok ].
Qed.

Lemma disable_leaves_no_live_timer_witness :
  let w := wait_delay_world in
  ∃ w',
    disable w = (Ok (), w')
    ∧ current w' = DISABLED
    ∧ (∀ t, owns (current w) (waitCRATimer (self w)) (commDelayTimer (self w)) t →
            trace_since w w' = [ConnectionDisable; TimerCancel t; Log INFO])
    ∧ (∀ t o, timer_heap w' !! t = Some o → live o = false)
    ∧ timers_ok w' = true.
Proof.
  apply (disable_leaves_no_live_timer wait_delay_world).
  - vm_compute; discriminate.
  - vm_compute; reflexivity.
Defined.

(** ** No stale entry in the wait list *)

Lemma filter_no_removal (e : nat) (δ : list action) :
  Forall (λ a, is_removal e a = false) δ →
  filter (λ a, is_removal e a = true) δ = [].
Proof.
  induction 1 as [|a δ Ha _ IH]; [done|].
  rewrite filter_cons_False by congruence. done.
Qed.

(** In every run of a new handler the wait list is well formed. *)
Lemma exec_waitlist_ok `{app : GemApplication}
    `{codec : SecsCodec} (h : GemHandler) (ops : list op) :
  waitlist_ok (exec ops (new_world (set_waitEventList [] h))) = true.
Proof.
  apply bool_decide_eq_true.
  destruct (exec_evolves None ops (new_world (set_waitEventList [] h)))
    as (_ & _ & Hwf).
  { intros e [=]. }
  apply Hwf. split; cbn; [apply NoDup_nil_2 | apply Forall_nil_2].
Qed.

(** C8: a call of [waitfor_communicating] registers a new event [e] and
    removes it exactly once before it returns, on each of its paths.  In
    COMMUNICATING it returns true at once and leaves the wait list as it
    found it.  Otherwise it blocks with [e] appended; whatever the other
    callers, the transport and the timers do in the meantime, [e] is still
    registered when [event.wait] returns, and the call then returns the flag
    of the event (true after a release, false after a timeout) with [e]
    gone from the list, the list one entry shorter and the other entries in
    place.  On every path the trace of the call holds one removal of [e]. *)
Theorem waitfor_communicating_leaves_no_entry `{app : GemApplication}
    `{codec : SecsCodec}
    (timeout : option Z) (w : World) :
  waitlist_ok w = true →
  let e := fresh (dom (event_heap w)) in
  (e ∉ waitEventList (self w))
  ∧ ∃ w1,
      if bool_decide (current w = COMMUNICATING) then
        waitfor_communicating timeout w = (Ok (e, Some true), w1)
        ∧ waitEventList (self w1) = waitEventList (self w)
        ∧ filter (λ a, is_removal e a = true) (trace_since w w1)
            = [WaitListRemove e]
      else
        waitfor_communicating timeout w = (Ok (e, None), w1)
        ∧ waitEventList (self w1) = waitEventList (self w) ++ [e]
        ∧ ∀ others, OpResume e ∉ others →
            let w2 := exec others w1 in
            e ∈ waitEventList (self w2)
            ∧ ∃ w3,
                waitfor_communicating_resume e w2
                  = (Ok (default false (event_heap w2 !! e)), w3)
                ∧ waitEventList (self w3)
                    = filter (λ x, x ≠ e) (waitEventList (self w2))
                ∧ (e ∉ waitEventList (self w3))
                ∧ length (waitEventList (self w2))
                    = S (length (waitEventList (self w3)))
                ∧ filter (λ a, is_removal e a = true) (trace_since w w3)
                    = [WaitListRemove e].
Proof.
  intros Hok e. subst e. apply bool_decide_eq_true in Hok.
  pose proof (fresh_event_not_registered w Hok) as Hfresh.
  split; [done|].
  destruct (waitfor_communicating_spec timeout w)
    as (w1 & l' & Hrun & Hrm & Hself & Hth & Heh & Htr).
  rewrite (list_remove_snoc_fresh _ _ Hfresh) in Hrm. injection Hrm as <-.
  pose proof (respects_waitfor_communicating None timeout w) as (_ & _ & Hwf1).
  rewrite Hrun in Hwf1. cbn [snd] in Hwf1. destruct (Hwf1 Hok) as [Hok1 _].
  exists w1. destruct (bool_decide (current w = COMMUNICATING)).
  - split; [done|]. split.
    + rewrite Hself. by destruct (self w).
    + unfold trace_since. rewrite Htr, drop_app_length. cbv beta iota.
      rewrite filter_cons_False by done. rewrite filter_cons_False by done.
      rewrite filter_cons_True by (cbn; by rewrite bool_decide_eq_true_2).
      done.
  - assert (Hin1 : fresh (dom (event_heap w)) ∈ waitEventList (self w1)).
    { rewrite Hself. destruct (self w). cbn.
      apply elem_of_app. right. by apply list_elem_of_singleton. }
    split; [done|]. split; [rewrite Hself; by destruct (self w)|].
    intros others Hothers w2. subst w2.
    destruct (exec_evolves (Some (fresh (dom (event_heap w)))) others w1)
      as (_ & _ & Hwf2).
    { by intros e [= <-]. }
    destruct (Hwf2 Hok1) as [[Hnd2 Hall2] Hkeeps].
    destruct (Hkeeps _ eq_refl Hin1) as (Hin2 & δ & Htr2 & Hδ).
    split; [done|].
    pose proof (waitfor_communicating_resume_spec
                  (fresh (dom (event_heap w))) (exec others w1)) as Hspec.
    destruct (list_remove_elem _ _ Hin2) as (l2 & Hrm2 & Hlen & Hnodup).
    destruct (Hnodup Hnd2) as [Hgone Hfilter].
    rewrite Hrm2 in Hspec. destruct Hspec as (w3 & Hrun3 & Hself3 & _ & _ & Htr3).
    exists w3. split; [done|].
    assert (Hl3 : waitEventList (self w3) = l2).
    { rewrite Hself3. by destruct (self (exec others w1)). }
    rewrite Hl3. split; [done|]. split; [done|]. split; [done|].
    unfold trace_since. rewrite Htr3, Htr2, Htr, <- !app_assoc, drop_app_length.
    rewrite !filter_app, (filter_no_removal _ _ Hδ).
    rewrite filter_cons_False by done. rewrite filter_cons_False by done.
    rewrite filter_cons_False by done.
    rewrite filter_cons_True by (cbn; by rewrite bool_decide_eq_true_2).
    done.
Qed.

Lemma waitfor_communicating_leaves_no_entry_witness :
  let w := wait_cra_world in
  let timeout := Some 5 in
  let e := fresh (dom (event_heap w)) in
  (e ∉ waitEventList (self w))
  ∧ ∃ w1,
      if bool_decide (current w = COMMUNICATING) then
        waitfor_communicating timeout w = (Ok (e, Some true), w1)
        ∧ waitEventList (self w1) = waitEventList (self w)
        ∧ filter (λ a, is_removal e a = true) (trace_since w w1)
            = [WaitListRemove e]
      else
        waitfor_communicating timeout w = (Ok (e, None), w1)
        ∧ waitEventList (self w1) = waitEventList (self w) ++ [e]
        ∧ ∀ others, OpResume e ∉ others →
            let w2 := exec others w1 in
            e ∈ waitEventList (self w2)
            ∧ ∃ w3,
                waitfor_communicating_resume e w2
                  = (Ok (default false (event_heap w2 !! e)), w3)
                ∧ waitEventList (self w3)
                    = filter (λ x, x ≠ e) (waitEventList (self w2))
                ∧ (e ∉ waitEventList (self w3))
                ∧ length (waitEventList (self w2))
                    = S (length (waitEventList (self w3)))
                ∧ filter (λ a, is_removal e a = true) (trace_since w w3)
                    = [WaitListRemove e].
Proof.
  apply (waitfor_communicating_leaves_no_entry (Some 5) wait_cra_world).
  vm_compute; reflexivity.
Defined.

Example timed_out_call_leaves_no_entry :
  let w := exec [OpWait (Some 5); OpAdvance 5; OpResume 0%nat] wait_cra_world in
  waitEventList (self w) = [] ∧ current w = WAIT_CRA.
Proof. vm_compute. done. Qed.

(** ** The retry loop of the handshake *)

Lemma fresh_timer_other (heap : gmap nat Timer) (t : nat) (o : Timer)
    (f : Timer → Timer) :
  heap !! t = Some o → fresh (dom (alter f t heap)) ≠ t.
Proof.
  intros Hlook Heq.
  assert (Hin : t ∈ dom (alter f t heap)).
  { apply elem_of_dom. rewrite lookup_alter_eq, Hlook. by eexists. }
  rewrite <- Heq in Hin at 1. by apply is_fresh in Hin.
Qed.

Lemma drop_length_app {A} (l l1 l2 : list A) :
  drop (length (l ++ l1)) (l ++ l2) = drop (length l1) l2.
Proof.
  induction l as [|x l IH]; [done | exact IH].
Qed.

(** C4: a session waits in WAIT_CRA with its handshake timer [t], created
    with the response timeout [T3] and started at time [s].  Before
    [s + T3] the timer does nothing.  Once [s + T3] is reached without an
    acknowledge, [_on_wait_cra_timeout] runs: the session is in WAIT_DELAY,
    has sent nothing, and a retry-delay timer [t1] with the interval
    [commDelayTimeout] was started.  That timer does nothing before its
    interval has passed; after it, [_on_wait_comm_delay_timeout] runs: the
    session is back in WAIT_CRA, whose entry action has sent one S1F13 and
    started a new handshake timer. *)
Theorem handshake_timeout_retries `{app : GemApplication}
    (w : World) (t : nat) (s : Z) :
  current w = WAIT_CRA →
  waitCRATimer (self w) = Some t →
  timer_heap w !! t =
    Some {| interval := T3 (self w); timer_function := on_wait_cra_timeout;
            started := Some s; finished := false |} →
  let due := s + Z.max 0 (T3 (self w)) in
  (clock w < due → Timer_run t w = (Ok (), w))
  ∧ (due ≤ clock w →
     ∃ w1 t1,
       Timer_run t w = (Ok (), w1)
       ∧ current w1 = WAIT_DELAY
       ∧ requests (trace_since w w1) = []
       ∧ (∀ o, timer_heap w1 !! t = Some o → live o = false)
       ∧ commDelayTimer (self w1) = Some t1
       ∧ timer_heap w1 !! t1 =
           Some {| interval := commDelayTimeout (self w);
                   timer_function := on_wait_comm_delay_timeout;
                   started := Some (clock w); finished := false |}
       ∧ ∀ now, clock w ≤ now →
           let w1' := (advance now w1).2 in
           let due' := clock w + Z.max 0 (commDelayTimeout (self w)) in
           (now < due' → Timer_run t1 w1' = (Ok (), w1'))
           ∧ (due' ≤ now →
              ∃ w2 t2,
                Timer_run t1 w1' = (Ok (), w2)
                ∧ current w2 = WAIT_CRA
                ∧ requests (trace_since w1 w2) =
                    [SecsS01F13 (if isHost (self w) then None
                                 else Some [MDLN (self w); SOFTREV (self w)])]
                ∧ (∀ o, timer_heap w2 !! t1 = Some o → live o = false)
                ∧ waitCRATimer (self w2) = Some t2
                ∧ timer_heap w2 !! t2 =
                    Some {| interval := T3 (self w);
                            timer_function := on_wait_cra_timeout;
                            started := Some now; finished := false |})).
Proof.
  intros Hs Hcra Hlook due. subst due.
  destruct w as [h th eh c tr]. unfold current, trace_since in *.
  destruct h as [mdln softrev host st cra delay dt rid wl cbs t3].
  cbn [self timer_heap clock trace communicationState waitCRATimer T3
       commDelayTimeout isHost MDLN SOFTREV] in *.
  subst st cra. split.
  { intros Hearly. unfold Timer_run. cbn [timer_heap clock]. rewrite Hlook.
    cbn [started finished interval]. by rewrite bool_decide_eq_false_2 by lia. }
  intros Hdue.
  pose proof (fresh_timer_other th t _ set_finished Hlook) as Hne.
  set (t1 := fresh (dom (alter set_finished t th))) in *.
  eexists _, t1. split.
  { unfold Timer_run. cbn [timer_heap clock]. rewrite Hlook.
    cbn [started finished interval timer_function].
    rewrite bool_decide_eq_true_2 by lia.
    unfold call_timer_function, _on_wait_cra_timeout, Timer_finish.
    mrun_fire. fold t1. reflexivity. }
  cbn [self timer_heap clock trace communicationState commDelayTimer
       set_commDelayTimer set_communicationState].
  split; [reflexivity|].
  split; [by rewrite <- !app_assoc, drop_app_length|].
  split; [intros o; apply cancelled_not_live|].
  split; [reflexivity|].
  assert (Hlook1 :
    alter set_finished t
      (alter (set_started c) t1
         (<[t1 := {| interval := dt; timer_function := on_wait_comm_delay_timeout;
                     started := None; finished := false |}]>
            (alter set_finished t th))) !! t1
    = Some {| interval := dt; timer_function := on_wait_comm_delay_timeout;
              started := Some c; finished := false |}).
  { rewrite lookup_alter_ne by done.
    by rewrite lookup_alter_eq, lookup_insert_eq. }
  split; [exact Hlook1|].
  intros now Hnow. cbn zeta. unfold advance, set_clock.
  cbn [snd self timer_heap event_heap clock trace].
  replace (Z.max c now) with now by lia.
  split.
  { intros Hearly. unfold Timer_run. cbn [timer_heap clock]. rewrite Hlook1.
    cbn [started finished interval]. by rewrite bool_decide_eq_false_2 by lia. }
  intros Hdue'.
  match goal with
  | |- context [Timer_run t1 ?w] =>
      set (heap1 := timer_heap w) in *
  end.
  assert (Hne2 : fresh (dom (alter set_finished t1 heap1)) ≠ t1).
  { eapply fresh_timer_other. exact Hlook1. }
  set (t2 := fresh (dom (alter set_finished t1 heap1))) in *.
  assert (Hlook2 :
    alter set_finished t1
      (alter (set_started now) t2
         (<[t2 := {| interval := t3; timer_function := on_wait_cra_timeout;
                     started := None; finished := false |}]>
            (alter set_finished t1 heap1))) !! t2
    = Some {| interval := t3; timer_function := on_wait_cra_timeout;
              started := Some now; finished := false |}).
  { rewrite lookup_alter_ne by done.
    by rewrite lookup_alter_eq, lookup_insert_eq. }
  destruct host.
  all: eexists _, t2; split;
    [ unfold Timer_run; cbn [timer_heap clock]; fold heap1; rewrite Hlook1;
      cbn [started finished interval timer_function];
      rewrite bool_decide_eq_true_2 by lia;
      unfold call_timer_function, _on_wait_comm_delay_timeout, Timer_finish;
      mrun_fire; fold heap1; fold t2; reflexivity | ].
  all: cbn [self timer_heap clock trace communicationState waitCRATimer
            set_waitCRATimer set_communicationState].
  all: split; [reflexivity|].
  all: split; [by rewrite <- !app_assoc, drop_length_app|].
  all: split; [intros o; apply cancelled_not_live|].
  all: split; [reflexivity | exact Hlook2].
Qed.

Lemma handshake_timeout_retries_witness :
  let w := exec [OpAdvance 45] wait_cra_world in
  let t := 0%nat in
  let s := 0 in
  let due := s + Z.max 0 (T3 (self w)) in
  due ≤ clock w
  ∧ ∃ w1 t1,
      Timer_run t w = (Ok (), w1)
      ∧ current w1 = WAIT_DELAY
      ∧ requests (trace_since w w1) = []
      ∧ (∀ o, timer_heap w1 !! t = Some o → live o = false)
      ∧ commDelayTimer (self w1) = Some t1
      ∧ timer_heap w1 !! t1 =
          Some {| interval := commDelayTimeout (self w);
                  timer_function := on_wait_comm_delay_timeout;
                  started := Some (clock w); finished := false |}
      ∧ let now := 55 in
        let w1' := (advance now w1).2 in
        let due' := clock w + Z.max 0 (commDelayTimeout (self w)) in
        clock w ≤ now
        ∧ due' ≤ now
        ∧ ∃ w2 t2,
            Timer_run t1 w1' = (Ok (), w2)
            ∧ current w2 = WAIT_CRA
            ∧ requests (trace_since w1 w2) =
                [SecsS01F13 (if isHost (self w) then None
                             else Some [MDLN (self w); SOFTREV (self w)])]
            ∧ (∀ o, timer_heap w2 !! t1 = Some o → live o = false)
            ∧ waitCRATimer (self w2) = Some t2
            ∧ timer_heap w2 !! t2 =
                Some {| interval := T3 (self w);
                        timer_function := on_wait_cra_timeout;
                        started := Some now; finished := false |}.
Proof.
  intros w t s due.
  assert (Hdue : due ≤ clock w) by (vm_compute; discriminate).
  split; [exact Hdue|].
  destruct (handshake_timeout_retries w t s) as [_ Htimeout].
  - vm_compute; reflexivity.
  - vm_compute; reflexivity.
  - vm_compute; reflexivity.
  - destruct (Htimeout Hdue)
      as (w1 & t1 & Hrun & Hstate & Hreq & Hdead & Hdelay & Hlook & Hretry).
    exists w1, t1. do 6 (split; [assumption|]).
    intros now w1' due'.
    assert (Hnow : clock w ≤ now) by (vm_compute; discriminate).
    assert (Hdue' : due' ≤ now) by (vm_compute; discriminate).
    do 2 (split; [assumption|]).
    destruct (Hretry now Hnow) as [_ Hlate]. exact (Hlate Hdue').
Defined.

Example handshake_retry_run :
  let w := exec [OpAdvance 45; OpTimer 0%nat; OpAdvance 55; OpTimer 1%nat]
             wait_cra_world in
  current w = WAIT_CRA
  ∧ requests (trace w) = [SecsS01F13 None; SecsS01F13 None]
  ∧ waitCRATimer (self w) = Some 2%nat.
Proof. vm_compute. done. Qed.

Example handshake_timer_not_early :
  exec [OpAdvance 44; OpTimer 0%nat] wait_cra_world
  = exec [OpAdvance 44] wait_cra_world.
Proof. vm_compute. reflexivity. Qed.

(** * Further properties of the handler *)

(** ** The dispatcher in every state *)

Ltac destruct_vars :=
  repeat (match goal with
          | |- context [match ?x with _ => _ end] => is_var x; destruct x
          end; mrun_fire).

(** X1: the dispatcher and the decoder.  When [secs_decode] raises, its
    exception leaves [_on_hsms_packet_received] with nothing done but the
    decoding; when the message decodes, the call returns normally, whatever
    the state and the message.  Outside WAIT_CRA the call changes neither
    the handler nor the timers nor the events; the only change of state it
    ever makes is from WAIT_CRA to COMMUNICATING, on a message of stream 1
    and function 13 or 14 that decodes. *)
Theorem dispatcher_state_changes `{app : GemApplication} `{codec : SecsCodec}
    (packet : HsmsPacket) (w : World) :
  ∃ r w',
    _on_hsms_packet_received packet w = (r, w')
    ∧ match secs_decode packet with
      | Ok _ => r = Ok ()
      | Raised e =>
          r = Raised e ∧ w' = with_trace (trace w ++ [SecsDecode packet]) w
      end
    ∧ (current w ≠ WAIT_CRA →
       self w' = self w ∧ timer_heap w' = timer_heap w
       ∧ event_heap w' = event_heap w)
    ∧ (current w' = current w
       ∨ (current w = WAIT_CRA ∧ current w' = COMMUNICATING
          ∧ stream (header packet) = 1
          ∧ (function (header packet) = 13 ∨ function (header packet) = 14)
          ∧ ∃ message, secs_decode packet = Ok message)).
Proof.
  destruct (secs_decode packet) as [message|e] eqn:Hdec.
  2:{ eexists _, _. split; [by apply packet_decode_raises|].
      destruct w. unfold current, with_trace. cbn. by auto. }
  destruct w as [h th eh c tr]. unfold current.
  destruct h as [mdln softrev host st cra delay dt rid wl cbs t3].
  cbn [self timer_heap event_heap communicationState].
  destruct (decide (stream (header packet) = 1)) as [Hst|Hst];
    destruct (decide (function (header packet) = 13)) as [Hf13|Hf13];
    destruct (decide (function (header packet) = 14)) as [Hf14|Hf14];
    try lia.
  all: destruct st; unfold _on_hsms_packet_received; mrun_fire.
  all: repeat (match goal with
               | |- context [bool_decide (is_Some ?x)] =>
                   destruct (bool_decide (is_Some x))
               | |- context [if requireResponse ?x then _ else _] =>
                   destruct (requireResponse x)
               end; mrun_fire).
  all: destruct_vars.
  all: rewrite ?for_each_Event_set.
  all: eexists _, _; split; [reflexivity|].
  all: cbn [self timer_heap event_heap communicationState
            set_communicationState].
  all: split; [reflexivity|].
  all: split; [try done | first [by left | right; by eauto 10]].
Qed.

(** X2: in WAIT_CRA a handshake acknowledge (stream 1, function 14) that
    decodes, whatever its data, leads to COMMUNICATING: nothing is sent, the
    handshake timer is cancelled and not live afterwards, and the events of
    the wait list are set. *)
Theorem wait_cra_acknowledge `{app : GemApplication} `{codec : SecsCodec}
    (packet : HsmsPacket) (w : World) (message : option SecsFunction) :
  current w = WAIT_CRA →
  stream (header packet) = 1 →
  function (header packet) = 14 →
  secs_decode packet = Ok message →
  ∃ w',
    _on_hsms_packet_received packet w = (Ok (), w')
    ∧ current w' = COMMUNICATING
    ∧ responses (trace_since w w') = []
    ∧ requests (trace_since w w') = []
    ∧ (∀ t, waitCRATimer (self w) = Some t →
            TimerCancel t ∈ trace_since w w'
            ∧ ∀ o, timer_heap w' !! t = Some o → live o = false)
    ∧ waitEventList (self w') = waitEventList (self w)
    ∧ event_heap w' = release (waitEventList (self w)) (event_heap w).
Proof.
  intros Hs Hst Hfn Hdec.
  destruct w as [h th eh c tr]. unfold current, trace_since in *.
  destruct h as [mdln softrev host st cra delay dt rid wl cbs t3].
  cbn [self timer_heap event_heap trace communicationState waitCRATimer
       waitEventList] in *.
  subst st.
  assert (Hresp : ∀ l, responses (EventSet <$> l) = []).
  { induction l; [done | by cbn]. }
  assert (Hreq : ∀ l, requests (EventSet <$> l) = []).
  { induction l; [done | by cbn]. }
  destruct cra as [t|].
  all: eexists; split;
    [ unfold _on_hsms_packet_received; mrun_fire;
      rewrite for_each_Event_set; reflexivity | ].
  all: cbn [self timer_heap event_heap trace communicationState waitCRATimer
            waitEventList set_communicationState].
  all: rewrite <- !app_assoc, drop_app_length.
  all: split; [reflexivity|].
  all: split; [unfold responses; cbn; fold (responses (EventSet <$> wl));
               by rewrite Hresp|].
  all: split; [unfold requests; cbn; fold (requests (EventSet <$> wl));
               by rewrite Hreq|].
  all: split; [| by split].
  - intros t' [= <-]. split.
    + do 3 (apply elem_of_cons; right). apply elem_of_cons. by left.
    + intros o. apply cancelled_not_live.
  - intros t' [=].
Qed.

Lemma wait_cra_acknowledge_witness :
  let packet := sample_packet 1 14 false in
  let w := blocked_world in
  ∃ w',
    _on_hsms_packet_received packet w = (Ok (), w')
    ∧ current w' = COMMUNICATING
    ∧ responses (trace_since w w') = []
    ∧ requests (trace_since w w') = []
    ∧ (∀ t, waitCRATimer (self w) = Some t →
            TimerCancel t ∈ trace_since w w'
            ∧ ∀ o, timer_heap w' !! t = Some o → live o = false)
    ∧ waitEventList (self w') = waitEventList (self w)
    ∧ event_heap w' = release (waitEventList (self w)) (event_heap w).
Proof.
  apply (wait_cra_acknowledge (sample_packet 1 14 false) blocked_world
           (Some (SecsS01F14 0 (Some [])))).
  - vm_compute; reflexivity.
  - reflexivity.
  - reflexivity.
  - vm_compute; reflexivity.
Defined.

(** X3: in WAIT_CRA every message that decodes and is neither S1F13 nor
    S1F14 is ignored: the call adds the decoding, the log record and one
    state test to the trace and changes nothing else; no reply is sent even
    when the message requires one. *)
Theorem wait_cra_ignores_other_messages `{app : GemApplication}
    `{codec : SecsCodec} (packet : HsmsPacket) (w : World)
    (message : option SecsFunction) :
  current w = WAIT_CRA →
  ¬ (stream (header packet) = 1
     ∧ (function (header packet) = 13 ∨ function (header packet) = 14)) →
  secs_decode packet = Ok message →
  _on_hsms_packet_received packet w =
    (Ok (), with_trace
              (trace w ++ [SecsDecode packet; Log INFO; IsState WAIT_CRA true])
              w).
Proof.
  intros Hs Hother Hdec.
  destruct w as [h th eh c tr]. unfold current, with_trace in *. cbn in Hs.
  destruct (decide (stream (header packet) = 1)) as [Hst|Hst];
    destruct (decide (function (header packet) = 13)) as [Hf13|Hf13];
    destruct (decide (function (header packet) = 14)) as [Hf14|Hf14];
    try lia; try (destruct Hother; by auto).
  all: unfold _on_hsms_packet_received; mrun; by rewrite <- !app_assoc.
Qed.

Lemma wait_cra_ignores_other_messages_witness :
  let packet := sample_packet 1 1 true in
  let w := wait_cra_world in
  _on_hsms_packet_received packet w =
    (Ok (), with_trace
              (trace w ++ [SecsDecode packet; Log INFO; IsState WAIT_CRA true])
              w).
Proof.
  apply (wait_cra_ignores_other_messages (sample_packet 1 1 true)
           wait_cra_world (Some SecsS01F01)).
  - vm_compute; reflexivity.
  - intros [_ [H|H]]; vm_compute in H; discriminate H.
  - vm_compute; reflexivity.
Defined.

(** X4: in the states for which the dispatcher has no branch (DISABLED,
    NOT_COMMUNICATING and the others besides WAIT_CRA, WAIT_DELAY and
    COMMUNICATING) every message that decodes is dropped after the three
    state tests: nothing is sent, not even an S9F5 for a message that
    requires a response, and nothing but the trace changes. *)
Theorem unhandled_state_drops_message `{app : GemApplication}
    `{codec : SecsCodec} (packet : HsmsPacket) (w : World)
    (message : option SecsFunction) :
  current w ≠ WAIT_CRA →
  current w ≠ WAIT_DELAY →
  current w ≠ COMMUNICATING →
  secs_decode packet = Ok message →
  _on_hsms_packet_received packet w =
    (Ok (), with_trace
              (trace w ++ [SecsDecode packet; Log INFO;
                           IsState WAIT_CRA false; IsState WAIT_DELAY false;
                           IsState COMMUNICATING false])
              w).
Proof.
  intros H1 H2 H3 Hdec.
  destruct w as [h th eh c tr]. unfold current, with_trace in *.
  cbn in H1, H2, H3.
  unfold _on_hsms_packet_received; mrun; by rewrite <- !app_assoc.
Qed.

Lemma unhandled_state_drops_message_witness :
  let packet := sample_packet 1 13 true in
  let w := host_world in
  _on_hsms_packet_received packet w =
    (Ok (), with_trace
              (trace w ++ [SecsDecode packet; Log INFO;
                           IsState WAIT_CRA false; IsState WAIT_DELAY false;
                           IsState COMMUNICATING false])
              w).
Proof.
  apply (unhandled_state_drops_message (sample_packet 1 13 true) host_world
           (Some (SecsS01F13 None)));
    vm_compute; (discriminate || reflexivity).
Defined.

(** X5: in COMMUNICATING a message that decodes and whose stream and
    function have an entry in [self.callbacks] is handed to one new thread
    under its callback index; the dispatcher itself sends no reply and
    changes nothing but the trace. *)
Theorem registered_function_dispatched `{app : GemApplication}
    `{codec : SecsCodec} (packet : HsmsPacket) (w : World)
    (message : option SecsFunction) :
  current w = COMMUNICATING →
  is_Some (callbacks (self w) !! callback_index_of (header packet)) →
  secs_decode packet = Ok message →
  _on_hsms_packet_received packet w =
    (Ok (), with_trace
              (trace w ++ [SecsDecode packet; Log INFO;
                           IsState WAIT_CRA false; IsState WAIT_DELAY false;
                           IsState COMMUNICATING true;
                           StartThread (callback_index_of (header packet))
                             packet])
              w).
Proof.
  intros Hs Hcb Hdec.
  destruct w as [h th eh c tr]. unfold current, with_trace in *.
  cbn in Hs, Hcb.
  unfold _on_hsms_packet_received. mrun.
  rewrite ?(bool_decide_eq_true_2 _ Hcb). mrun. by rewrite <- !app_assoc.
Qed.

Lemma registered_function_dispatched_witness :
  let packet := sample_packet 1 13 true in
  let w := communicating_world in
  _on_hsms_packet_received packet w =
    (Ok (), with_trace
              (trace w ++ [SecsDecode packet; Log INFO;
                           IsState WAIT_CRA false; IsState WAIT_DELAY false;
                           IsState COMMUNICATING true;
                           StartThread (callback_index_of (header packet))
                             packet])
              w).
Proof.
  apply (registered_function_dispatched (sample_packet 1 13 true)
           communicating_world (Some (SecsS01F13 None))).
  - vm_compute; reflexivity.
  - vm_compute. by eexists.
  - vm_compute; reflexivity.
Defined.

(** ** Enabling, selecting, losing the connection *)

(** X6: [enable] on a disabled handler enables the connection and leaves the
    machine in NOT_COMMUNICATING, past the transient ENABLED; no timer is
    created and nothing is sent: the handshake waits for the select. *)
Theorem enable_from_disabled `{app : GemApplication} (w : World) :
  current w = DISABLED →
  ∃ w',
    enable w = (Ok (), w')
    ∧ current w' = NOT_COMMUNICATING
    ∧ trace_since w w' = [ConnectionEnable; Log INFO]
    ∧ timer_heap w' = timer_heap w
    ∧ event_heap w' = event_heap w
    ∧ self w' = set_communicationState NOT_COMMUNICATING (self w).
Proof.
  intros Hs. destruct w as [h th eh c tr]. unfold current, trace_since in *.
  destruct h as [mdln softrev host st cra delay dt rid wl cbs t3].
  cbn in Hs. subst st.
  eexists. split; [unfold enable; mrun_fire; reflexivity|].
  cbn [self timer_heap event_heap trace communicationState
       set_communicationState].
  rewrite <- !app_assoc, drop_app_length. by repeat split.
Qed.

Lemma enable_from_disabled_witness :
  let w := host_world in
  ∃ w',
    enable w = (Ok (), w')
    ∧ current w' = NOT_COMMUNICATING
    ∧ trace_since w w' = [ConnectionEnable; Log INFO]
    ∧ timer_heap w' = timer_heap w
    ∧ event_heap w' = event_heap w
    ∧ self w' = set_communicationState NOT_COMMUNICATING (self w).
Proof.
  apply (enable_from_disabled host_world). vm_compute; reflexivity.
Defined.

(** X7: [_on_hsms_select] in NOT_COMMUNICATING starts the handshake: the
    machine is in WAIT_CRA, past the transient EQUIPMENT_INITIATED_CONNECT,
    a new timer with the interval [T3] runs from the current time and is
    kept in [waitCRATimer], and exactly one S1F13 was sent, without data by
    a host and with [MDLN, SOFTREV] by an equipment. *)
Theorem select_starts_handshake `{app : GemApplication} (w : World) :
  current w = NOT_COMMUNICATING →
  ∃ w' t,
    _on_hsms_select w = (Ok (), w')
    ∧ current w' = WAIT_CRA
    ∧ requests (trace_since w w') =
        [SecsS01F13 (if isHost (self w) then None
                     else Some [MDLN (self w); SOFTREV (self w)])]
    ∧ responses (trace_since w w') = []
    ∧ timer_heap w !! t = None
    ∧ waitCRATimer (self w') = Some t
    ∧ timer_heap w' !! t =
        Some {| interval := T3 (self w); timer_function := on_wait_cra_timeout;
                started := Some (clock w); finished := false |}
    ∧ ∀ t', t' ≠ t → timer_heap w' !! t' = timer_heap w !! t'.
Proof.
  intros Hs. destruct w as [h th eh c tr]. unfold current, trace_since in *.
  destruct h as [mdln softrev host st cra delay dt rid wl cbs t3].
  cbn in Hs. subst st.
  assert (Hnew : th !! fresh (dom th) = None).
  { apply not_elem_of_dom, is_fresh. }
  destruct host.
  all: eexists _, (fresh (dom th)); split;
    [unfold _on_hsms_select; mrun_fire; reflexivity|].
  all: cbn [self timer_heap event_heap trace clock communicationState
            waitCRATimer set_waitCRATimer set_communicationState isHost
            MDLN SOFTREV T3].
  all: rewrite <- !app_assoc, drop_app_length.
  all: split; [reflexivity|]; split; [reflexivity|]; split; [reflexivity|].
  all: split; [exact Hnew|]; split; [reflexivity|].
  all: split;
    [ by rewrite lookup_alter_eq, lookup_insert_eq
    | intros t' Hne; by rewrite lookup_alter_ne, lookup_insert_ne ].
Qed.

Lemma select_starts_handshake_witness :
  let w := exec [OpEnable] equipment_world in
  ∃ w' t,
    _on_hsms_select w = (Ok (), w')
    ∧ current w' = WAIT_CRA
    ∧ requests (trace_since w w') =
        [SecsS01F13 (if isHost (self w) then None
                     else Some [MDLN (self w); SOFTREV (self w)])]
    ∧ responses (trace_since w w') = []
    ∧ timer_heap w !! t = None
    ∧ waitCRATimer (self w') = Some t
    ∧ timer_heap w' !! t =
        Some {| interval := T3 (self w); timer_function := on_wait_cra_timeout;
                started := Some (clock w); finished := false |}
    ∧ ∀ t', t' ≠ t → timer_heap w' !! t' = timer_heap w !! t'.
Proof.
  apply (select_starts_handshake (exec [OpEnable] equipment_world)).
  vm_compute; reflexivity.
Defined.

(** X8: [on_connection_closed] in COMMUNICATING leads to NOT_COMMUNICATING
    without touching timers, events or the wait list and without sending
    anything; in every other state it leaves the handler, the timers and
    the events as they are, so a handshake timer that runs keeps running. *)
Theorem connection_closed_only_leaves_communicating `{app : GemApplication}
    (w : World) :
  let w' := (on_connection_closed w).2 in
  timer_heap w' = timer_heap w
  ∧ event_heap w' = event_heap w
  ∧ responses (trace_since w w') = []
  ∧ requests (trace_since w w') = []
  ∧ self w' =
      (if bool_decide (current w = COMMUNICATING)
       then set_communicationState NOT_COMMUNICATING (self w)
       else self w).
Proof.
  destruct w as [h th eh c tr]. unfold current, trace_since.
  destruct h as [mdln softrev host st cra delay dt rid wl cbs t3].
  destruct st; unfold on_connection_closed; mrun_fire.
  all: rewrite <- ?app_assoc, drop_app_length; by repeat split.
Qed.

(** ** When COMMUNICATING is entered *)

(** What one operation does to the state and to the events: either it is
    the S1F13 or S1F14 that ends the handshake in WAIT_CRA, and the events
    of the wait list are set, or it does not enter COMMUNICATING and leaves
    the flag of every event as it is. *)
Lemma run_op_enters_communicating `{app : GemApplication}
    `{codec : SecsCodec} (o : op) (w : World) :
  let w' := (run_op o w).2 in
  (current w = WAIT_CRA ∧ current w' = COMMUNICATING
   ∧ (∃ packet, o = OpPacket packet ∧ stream (header packet) = 1
        ∧ (function (header packet) = 13 ∨ function (header packet) = 14))
   ∧ event_heap w' = release (waitEventList (self w)) (event_heap w))
  ∨ ((current w' = COMMUNICATING → current w = COMMUNICATING)
     ∧ ∀ e, is_Some (event_heap w !! e) →
            event_heap w' !! e = event_heap w !! e).
Proof.
  destruct o as [| |packet| | |timeout|e|t|now]; cbn [run_op].
  6: { right.
       destruct (waitfor_communicating_spec timeout w)
         as (w1 & l' & Hrun & _ & Hself & _ & Heh & _).
       unfold mbind, M_bind, mret, M_ret. rewrite Hrun. cbn [snd].
       unfold current.
       rewrite Hself, Heh. split; [by destruct (self w)|].
       intros e Hsome. apply lookup_insert_ne. intros <-.
       apply elem_of_dom in Hsome. by apply is_fresh in Hsome. }
  6: { right. pose proof (waitfor_communicating_resume_spec e w) as Hspec.
       unfold mbind, M_bind, mret, M_ret.
       destruct (list_remove e (waitEventList (self w))).
       - destruct Hspec as (w3 & Hrun & Hself & _ & Heh & _).
         rewrite Hrun. cbn [snd]. unfold current. rewrite Hself, Heh.
         split; [by destruct (self w) | done].
       - rewrite Hspec. by split. }
  7: { right. by destruct w. }
  3: destruct (secs_decode packet) as [message|e] eqn:Hdec.
  4: { right. rewrite (packet_decode_raises _ _ _ Hdec). by destruct w. }
  all: destruct w as [h th eh c tr]; unfold current.
  all: destruct h as [mdln softrev host st cra delay dt rid wl cbs t3].
  all: cbn [self timer_heap event_heap communicationState waitEventList].
  - destruct st; unfold enable; mrun_fire; right; by split.
  - destruct st; unfold disable; mrun_fire; destruct_vars; right; by split.
  - destruct st.
    5: { destruct (decide (stream (header packet) = 1)) as [Hst|Hst];
           destruct (decide (function (header packet) = 13)) as [Hf13|Hf13];
           destruct (decide (function (header packet) = 14)) as [Hf14|Hf14];
           try lia.
         all: unfold _on_hsms_packet_received; mrun_fire.
         all: destruct_vars.
         all: rewrite ?for_each_Event_set.
         all: cbn [snd self timer_heap event_heap communicationState
                   set_communicationState waitEventList].
         all: first [ right; by split
                    | left; split; [done|]; split; [done|];
                      split; [exists packet; auto | reflexivity] ]. }
    all: unfold _on_hsms_packet_received; mrun.
    all: repeat (match goal with
                 | |- context [bool_decide (is_Some ?x)] =>
                     destruct (bool_decide (is_Some x))
                 | |- context [if requireResponse ?x then _ else _] =>
                     destruct (requireResponse x)
                 end; mrun).
    all: right; by split.
  - destruct st; unfold _on_hsms_select; mrun_fire; destruct_vars;
      right; by split.
  - destruct st; unfold on_connection_closed; mrun_fire; right; by split.
  - unfold Timer_run. cbn [timer_heap clock].
    destruct (th !! t) as [o|]; [| right; by split].
    destruct (started o) as [s|]; [| right; by split].
    destruct (finished o); [right; by split|].
    case_bool_decide; [| right; by split].
    destruct (timer_function o); destruct st;
      unfold call_timer_function, _on_wait_cra_timeout,
        _on_wait_comm_delay_timeout, Timer_finish;
      mrun_fire; destruct_vars; right; by split.
Qed.

(** X9: the only operation that takes a session into COMMUNICATING is the
    delivery of an S1F13 or S1F14 while it is in WAIT_CRA.  No call of
    [enable], [disable], [_on_hsms_select], [on_connection_closed] or
    [waitfor_communicating], no timer and no message in another state does
    it; in particular the transitions the table has from WAIT_DELAY and
    WAIT_CR_FROM_HOST to COMMUNICATING are never taken. *)
Theorem communicating_only_by_handshake `{app : GemApplication}
    `{codec : SecsCodec}
    (o : op) (w : World) :
  current w ≠ COMMUNICATING →
  current (run_op o w).2 = COMMUNICATING →
  current w = WAIT_CRA
  ∧ ∃ packet, o = OpPacket packet ∧ stream (header packet) = 1
      ∧ (function (header packet) = 13 ∨ function (header packet) = 14).
Proof.
  intros Hbefore Hafter.
  destruct (run_op_enters_communicating o w) as [(Hs & _ & Hp & _)|[Hstay _]].
  - by split.
  - destruct Hbefore. by apply Hstay.
Qed.

Lemma communicating_only_by_handshake_witness :
  let o := OpPacket (sample_packet 1 14 false) in
  let w := wait_cra_world in
  current w = WAIT_CRA
  ∧ ∃ packet, o = OpPacket packet ∧ stream (header packet) = 1
      ∧ (function (header packet) = 13 ∨ function (header packet) = 14).
Proof.
  apply (communicating_only_by_handshake
           (OpPacket (sample_packet 1 14 false)) wait_cra_world).
  - vm_compute; discriminate.
  - vm_compute; reflexivity.
Defined.

(** ** What a blocked caller returns *)

Lemma release_true (l : list nat) (heap : gmap nat bool) (e : nat) :
  heap !! e = Some true → release l heap !! e = Some true.
Proof.
  revert heap. induction l as [|x l IH]; intros heap Hset; [done|].
  cbn. apply IH. destruct (decide (x = e)) as [->|Hne].
  - apply lookup_insert_eq.
  - by rewrite lookup_insert_ne.
Qed.

(** The flag of a registered event after a run: set exactly when it was set
    before or the session was in COMMUNICATING at some moment of the run. *)
Lemma flag_after_run `{app : GemApplication}
    `{codec : SecsCodec} (e : nat) (ops : list op)
    (w : World) :
  waitlist_wf w →
  e ∈ waitEventList (self w) →
  OpResume e ∉ ops →
  (current w = COMMUNICATING → event_heap w !! e = Some true) →
  event_heap (exec ops w) !! e = Some true
  ↔ event_heap w !! e = Some true
    ∨ ∃ k, current (exec (take k ops) w) = COMMUNICATING.
Proof.
  revert w. induction ops as [|o ops IH]; intros w Hwf Hin Hres Hinv.
  - cbn. split; [by left|]. intros [Hset|[k Hk]]; [done|].
    rewrite take_nil in Hk. by apply Hinv.
  - assert (Hsome : is_Some (event_heap w !! e)).
    { destruct Hwf as [_ Hall]. rewrite Forall_forall in Hall. by apply Hall. }
    destruct (respects_run_op (Some e) o) with (w := w) as (_ & _ & Hstep).
    { intros e' [= <-] ->. apply Hres. by left. }
    destruct (Hstep Hwf) as [Hwf' Hkeeps].
    destruct (Hkeeps e eq_refl Hin) as [Hin' _].
    assert (Hres' : OpResume e ∉ ops).
    { intros Hx. apply Hres. by right. }
    cbn [exec foldl]. fold (exec ops (run_op o w).2).
    destruct (run_op_enters_communicating o w)
      as [(Hs & Hc & _ & Heh)|[Hstay Hflags]].
    + assert (Hset' : event_heap (run_op o w).2 !! e = Some true).
      { rewrite Heh. by apply release_lookup. }
      rewrite (IH _ Hwf' Hin' Hres' (λ _, Hset')).
      split; [| by left].
      intros _. right. exists 1%nat. exact Hc.
    + specialize (Hflags e Hsome).
      assert (Hinv' : current (run_op o w).2 = COMMUNICATING →
                      event_heap (run_op o w).2 !! e = Some true).
      { intros Hc. rewrite Hflags. by apply Hinv, Hstay. }
      rewrite (IH _ Hwf' Hin' Hres' Hinv'), Hflags.
      split.
      * intros [Hset|[k Hk]]; [by left|]. right. by exists (S k).
      * intros [Hset|[[|k] Hk]]; [by left | left; by apply Hinv |].
        right. by exists k.
Qed.

(** X10: a caller that blocked in [waitfor_communicating] returns, whatever
    happened in between, with its entry removed from the wait list, and it
    returns True exactly when the session was in COMMUNICATING at some
    moment while it was blocked, also when the session has left that state
    again before the caller wakes up; otherwise it returns False. *)
Theorem blocked_caller_result `{app : GemApplication} `{codec : SecsCodec}
    (timeout : option Z) (others : list op) (w : World) :
  waitlist_ok w = true →
  current w ≠ COMMUNICATING →
  let e := fresh (dom (event_heap w)) in
  OpResume e ∉ others →
  let w1 := (waitfor_communicating timeout w).2 in
  let w2 := exec others w1 in
  ∃ r w3,
    waitfor_communicating_resume e w2 = (Ok r, w3)
    ∧ (r = true ↔ ∃ k, current (exec (take k others) w1) = COMMUNICATING)
    ∧ waitEventList (self w3) = filter (λ x, x ≠ e) (waitEventList (self w2))
    ∧ (e ∉ waitEventList (self w3)).
Proof.
  intros Hok Hs e Hres w1 w2. subst e w1 w2.
  apply bool_decide_eq_true in Hok.
  pose proof (fresh_event_not_registered w Hok) as Hfresh.
  destruct (waitfor_communicating_spec timeout w)
    as (w1 & l' & Hrun & _ & Hself & _ & Heh & _).
  pose proof (respects_waitfor_communicating None timeout w) as (_ & _ & Hwf1).
  rewrite Hrun in *. cbn [snd] in *. destruct (Hwf1 Hok) as [Hok1 _].
  rewrite bool_decide_eq_false_2 in Hself by done.
  assert (Hin1 : fresh (dom (event_heap w)) ∈ waitEventList (self w1)).
  { rewrite Hself. destruct (self w). cbn.
    apply elem_of_app. right. by apply list_elem_of_singleton. }
  assert (Hs1 : current w1 ≠ COMMUNICATING).
  { unfold current in *. rewrite Hself. by destruct (self w). }
  assert (Hunset : event_heap w1 !! fresh (dom (event_heap w)) = Some false).
  { rewrite Heh. apply lookup_insert_eq. }
  pose proof (flag_after_run _ others w1 Hok1 Hin1 Hres
                (λ Hc, False_ind _ (Hs1 Hc))) as Hflag.
  destruct (exec_evolves (Some (fresh (dom (event_heap w)))) others w1)
    as (_ & _ & Hwf2).
  { by intros e [= <-]. }
  destruct (Hwf2 Hok1) as [[Hnd2 Hall2] Hkeeps].
  destruct (Hkeeps _ eq_refl Hin1) as (Hin2 & _).
  pose proof (waitfor_communicating_resume_spec
                (fresh (dom (event_heap w))) (exec others w1)) as Hspec.
  destruct (list_remove_elem _ _ Hin2) as (l2 & Hrm2 & _ & Hnodup).
  destruct (Hnodup Hnd2) as [Hgone Hfilter].
  rewrite Hrm2 in Hspec. destruct Hspec as (w3 & Hrun3 & Hself3 & _).
  assert (Hl3 : waitEventList (self w3) = l2).
  { rewrite Hself3. by destruct (self (exec others w1)). }
  eexists _, w3. split; [exact Hrun3|]. rewrite Hl3.
  split; [| by split].
  rewrite Forall_forall in Hall2. destruct (Hall2 _ Hin2) as [b Hb].
  rewrite Hb in Hflag |- *. rewrite Hunset in Hflag.
  change (default false (Some b)) with b.
  destruct Hflag as [Hto Hfrom]. split.
  - intros ->. by destruct (Hto eq_refl) as [[=]|Hk].
  - intros Hk. specialize (Hfrom (or_intror Hk)). by injection Hfrom.
Qed.

Lemma blocked_caller_result_witness :
  let timeout := Some 5 in
  let others := [OpPacket (sample_packet 1 14 false); OpConnectionClosed] in
  let w := wait_cra_world in
  let e := fresh (dom (event_heap w)) in
  let w1 := (waitfor_communicating timeout w).2 in
  let w2 := exec others w1 in
  ∃ r w3,
    waitfor_communicating_resume e w2 = (Ok r, w3)
    ∧ (r = true ↔ ∃ k, current (exec (take k others) w1) = COMMUNICATING)
    ∧ waitEventList (self w3) = filter (λ x, x ≠ e) (waitEventList (self w2))
    ∧ (e ∉ waitEventList (self w3)).
Proof.
  apply (blocked_caller_result (Some 5)
           [OpPacket (sample_packet 1 14 false); OpConnectionClosed]
           wait_cra_world).
  - vm_compute; reflexivity.
  - vm_compute; discriminate.
  - intros H. apply elem_of_cons in H as [H|H]; [discriminate H|].
    apply elem_of_cons in H as [H|H]; [discriminate H|].
    by apply elem_of_nil in H.
Defined.

Example released_then_disconnected_returns_true :
  let w1 := (waitfor_communicating (Some 5) wait_cra_world).2 in
  let w2 := exec [OpPacket (sample_packet 1 14 false); OpConnectionClosed] w1 in
  current w2 = NOT_COMMUNICATING
  ∧ (waitfor_communicating_resume 0%nat w2).1 = Ok true.
Proof. vm_compute. done. Qed.

Example timed_out_returns_false :
  let w1 := (waitfor_communicating (Some 5) wait_cra_world).2 in
  let w2 := exec [OpAdvance 5] w1 in
  (waitfor_communicating_resume 0%nat w2).1 = Ok false.
Proof. vm_compute. done. Qed.

(** ** Timers in a run *)

Lemma owns_current_timer (w : World) (t : nat) :
  owns (current w) (waitCRATimer (self w)) (commDelayTimer (self w)) t →
  current_timer w = Some t.
Proof.
  unfold current_timer. by intros [[-> Ht]|[-> Ht]].
Qed.

Lemma exec_timers_wf `{app : GemApplication}
    `{codec : SecsCodec} (h : GemHandler) (ops : list op) :
  timers_wf (exec ops (new_world h)).
Proof.
  destruct (exec_evolves None ops (new_world h)) as (_ & Htimers & _).
  { intros e [=]. }
  apply Htimers. unfold timers_wf, owned. cbn. apply map_Forall_empty.
Qed.

(** X11: in every run of a handler a timer that is live (started and
    neither cancelled nor run) is the timer of the current state: the one in
    [waitCRATimer] while in WAIT_CRA, the one in [commDelayTimer] while in
    WAIT_DELAY.  So at most one timer is live at a time, and none in any
    other state. *)
Theorem live_timer_is_current `{app : GemApplication} `{codec : SecsCodec}
    (h : GemHandler) (ops : list op) (t : nat) (o : Timer) :
  let w := exec ops (new_world h) in
  timer_heap w !! t = Some o →
  live o = true →
  current_timer w = Some t
  ∧ (current w = WAIT_CRA ∨ current w = WAIT_DELAY)
  ∧ ∀ t' o', timer_heap w !! t' = Some o' → live o' = true → t' = t.
Proof.
  intros w Hlook Hlive. subst w.
  pose proof (exec_timers_wf h ops) as Hwf.
  pose proof (owns_current_timer _ _ (Hwf t o Hlook Hlive)) as Hcur.
  split; [done|]. split.
  - unfold current_timer in Hcur.
    destruct (current (exec ops (new_world h))); try discriminate; auto.
  - intros t' o' Hlook' Hlive'.
    pose proof (owns_current_timer _ _ (Hwf t' o' Hlook' Hlive')) as Hcur'.
    congruence.
Qed.

Lemma live_timer_is_current_witness :
  let h := __init__ 45 in
  let ops := [OpEnable; OpSelect; OpAdvance 45; OpTimer 0%nat] in
  let t := 1%nat in
  let o := {| interval := 10; timer_function := on_wait_comm_delay_timeout;
              started := Some 45; finished := false |} in
  let w := exec ops (new_world h) in
  current_timer w = Some t
  ∧ (current w = WAIT_CRA ∨ current w = WAIT_DELAY)
  ∧ ∀ t' o', timer_heap w !! t' = Some o' → live o' = true → t' = t.
Proof.
  apply (live_timer_is_current (__init__ 45)
           [OpEnable; OpSelect; OpAdvance 45; OpTimer 0%nat] 1%nat
           {| interval := 10; timer_function := on_wait_comm_delay_timeout;
              started := Some 45; finished := false |}).
  - vm_compute; reflexivity.
  - vm_compute; reflexivity.
Defined.

(** X12: in every run of a handler the thread of a timer that is not the
    timer of the current state does nothing, however much time has passed:
    a timer of a state that was left never fires, and in DISABLED,
    NOT_COMMUNICATING and COMMUNICATING no timer fires at all. *)
Theorem stale_timer_does_nothing `{app : GemApplication} `{codec : SecsCodec}
    (h : GemHandler) (ops : list op) (t : nat) :
  let w := exec ops (new_world h) in
  current_timer w ≠ Some t →
  Timer_run t w = (Ok (), w).
Proof.
  intros w Hstale. subst w.
  pose proof (exec_timers_wf h ops) as Hwf.
  unfold Timer_run.
  destruct (timer_heap (exec ops (new_world h)) !! t) as [o|] eqn:Hlook;
    [|done].
  destruct (started o) as [s|] eqn:Hstarted; [|done].
  destruct (finished o) eqn:Hfinished; [done|].
  destruct Hstale. apply owns_current_timer. apply (Hwf t o Hlook).
  unfold live. rewrite Hstarted, Hfinished.
  apply andb_true_intro. split; [|done].
  apply bool_decide_eq_true_2. by eexists.
Qed.

Lemma stale_timer_does_nothing_witness :
  let h := __init__ 45 in
  let ops := [OpEnable; OpSelect; OpPacket (sample_packet 1 14 false);
              OpAdvance 100] in
  let t := 0%nat in
  let w := exec ops (new_world h) in
  Timer_run t w = (Ok (), w).
Proof.
  apply (stale_timer_does_nothing (__init__ 45)
           [OpEnable; OpSelect; OpPacket (sample_packet 1 14 false);
            OpAdvance 100] 0%nat).
  vm_compute; discriminate.
Defined.

(** ** The states of a run *)

Lemma next_stays_stable (ev : Event.t) (s s' : state) :
  Fysom.next ev s = Some s' →
  s' ∈ [DISABLED; NOT_COMMUNICATING; WAIT_CRA; WAIT_DELAY; COMMUNICATING].
Proof.
  destruct s, ev; intros Hnext; vm_compute in Hnext; try discriminate Hnext;
    injection Hnext as <-;
    repeat constructor.
Qed.

(** X13: in every run of a handler that starts in the initial state the
    machine is in one of DISABLED, NOT_COMMUNICATING, WAIT_CRA, WAIT_DELAY
    and COMMUNICATING after each operation: the transient states ENABLED and
    EQUIPMENT_INITIATED_CONNECT are never the current state.  Each of the
    five states is the state of a new handler after some run. *)
Theorem current_state_is_stable :
  (∀ (app : GemApplication) (codec : SecsCodec)
     (h : GemHandler) (ops : list op),
     current (exec ops (new_world (set_communicationState initial h)))
     ∈ [DISABLED; NOT_COMMUNICATING; WAIT_CRA; WAIT_DELAY; COMMUNICATING])
  ∧ ∀ s,
      s ∈ [DISABLED; NOT_COMMUNICATING; WAIT_CRA; WAIT_DELAY; COMMUNICATING] →
      ∃ ops, current (exec ops host_world) = s.
Proof.
  split.
  - intros app codec h ops.
    destruct (exec_evolves None ops
                (new_world (set_communicationState initial h))) as (Hrtc & _).
    { intros e [=]. }
    revert Hrtc. generalize (exec ops (new_world (set_communicationState initial h))).
    intros w Hrtc. apply rtc_inv_r in Hrtc as [Heq|(s & _ & ev & Hnext)].
    + rewrite <- Heq. unfold current. cbn. destruct h. cbn.
      constructor.
    + by eapply next_stays_stable.
  - intros s Hs.
    repeat (apply elem_of_cons in Hs as [->|Hs]).
    + by exists [].
    + by exists [OpEnable].
    + by exists [OpEnable; OpSelect].
    + by exists [OpEnable; OpSelect; OpAdvance 45; OpTimer 0%nat].
    + by exists [OpEnable; OpSelect; OpPacket (sample_packet 1 14 false)].
    + by apply elem_of_nil in Hs.
Qed.

(** ** The key of a message in [self.callbacks] *)

Lemma occurs_append (c : Ascii.ascii) (s1 s2 : string) :
  occurs c (s1 +:+ s2) = occurs c s1 || occurs c s2.
Proof.
  induction s1 as [|c' s1 IH]; [done|].
  change (String c' s1 +:+ s2) with (String c' (s1 +:+ s2)).
  cbn [occurs]. by rewrite IH, orb_assoc.
Qed.

Lemma pretty_N_go_no_f (x : N) (s : string) :
  occurs "f"%char s = false → occurs "f"%char (pretty_N_go x s) = false.
Proof.
  revert s. induction (N.lt_wf_0 x) as [x _ IH]; intros s Hs.
  assert (x = 0 ∨ 0 < x)%N as [->|Hpos] by lia.
  - by rewrite pretty_N_go_0.
  - rewrite pretty_N_go_step by done. apply IH.
    { by apply N.div_lt. }
    cbn. rewrite Hs, orb_false_r. apply bool_decide_eq_false_2.
    unfold pretty_N_char. by repeat case_match.
Qed.

Lemma pretty_Z_no_f (z : Z) : occurs "f"%char (pretty z) = false.
Proof.
  assert (HN : ∀ n : N, occurs "f"%char (pretty n) = false).
  { intros n. unfold pretty, pretty_N. case_decide; [done|].
    by apply pretty_N_go_no_f. }
  destruct z as [|p|p]; [done | apply HN |].
  unfold pretty, pretty_Z. rewrite occurs_append. cbn. apply HN.
Qed.

Lemma split_at_first (c : Ascii.ascii) (a a' b b' : string) :
  occurs c a = false → occurs c a' = false →
  a +:+ String c b = a' +:+ String c b' → a = a' ∧ b = b'.
Proof.
  revert a'. induction a as [|x a IH]; intros [|x' a'] Ha Ha' Heq; cbn in *.
  - by injection Heq as ->.
  - injection Heq as <- _. by rewrite bool_decide_eq_true_2 in Ha'.
  - injection Heq as -> _. by rewrite bool_decide_eq_true_2 in Ha.
  - injection Heq as -> Heq.
    apply orb_false_elim in Ha as [_ Ha]. apply orb_false_elim in Ha' as [_ Ha'].
    destruct (IH a' Ha Ha' Heq) as [-> ->]. done.
Qed.

(** X14: the key under which the dispatcher looks a message up in
    [self.callbacks] determines the stream and the function of the message:
    two messages have the same key exactly when they agree on both, so the
    handlers of one stream and function are never run for another. *)
Theorem callback_index_of_inj (h1 h2 : HsmsHeader) :
  callback_index_of h1 = callback_index_of h2
  ↔ stream h1 = stream h2 ∧ function h1 = function h2.
Proof.
  split; [| by intros [Hs Hf]; unfold callback_index_of; rewrite Hs, Hf].
  unfold callback_index_of. intros Heq.
  change ("s" +:+ ?x) with (String "s"%char x) in Heq.
  injection Heq as Heq.
  change ("f" +:+ ?x) with (String "f"%char x) in Heq.
  apply split_at_first in Heq as [Hs Hf]; try apply pretty_Z_no_f.
  split; by apply (inj pretty).
Qed.

Example callback_index_distinct :
  callback_index_of (header (sample_packet 1 13 true))
  ≠ callback_index_of (header (sample_packet 11 3 true)).
Proof. vm_compute. discriminate. Qed.

(** ** Whole cycles *)

Lemma no_live_Timer_run `{app : GemApplication} (t : nat) (w : World) :
  no_live (timer_heap w) → Timer_run t w = (Ok (), w).
Proof.
  intros Hno. unfold Timer_run.
  destruct (timer_heap w !! t) as [o|] eqn:Hlook; [|done].
  specialize (Hno t o Hlook). cbn in Hno. unfold live in Hno.
  destruct (started o) as [s|]; [|done].
  destruct (finished o); [done|].
  rewrite bool_decide_eq_true_2 in Hno by by eexists. done.
Qed.

Lemma no_live_replaced (heap : gmap nat Timer) (t : nat) (o : Timer)
    (f : Timer → Timer) :
  no_live heap → no_live (alter set_finished t (alter f t (<[t := o]> heap))).
Proof.
  intros Hno t' o' Hlook. cbn.
  destruct (decide (t = t')) as [->|Hne].
  - rewrite lookup_alter_eq in Hlook.
    destruct (alter f t' (<[t':=o]> heap) !! t') as [o''|]; [|done].
    injection Hlook as <-. apply live_set_finished.
  - rewrite !lookup_alter_ne, lookup_insert_ne in Hlook by done.
    by apply (Hno t' o').
Qed.

Lemma requests_EventSet (l : list nat) : requests (EventSet <$> l) = [].
Proof. induction l; [done | by cbn]. Qed.

Lemma responses_EventSet (l : list nat) : responses (EventSet <$> l) = [].
Proof. induction l; [done | by cbn]. Qed.

(** X15: on a disabled handler, [enable], the select of the transport and
    the peer's S1F14, when it decodes, bring the session to COMMUNICATING:
    exactly one S1F13 was sent, no reply was sent, no timer is live, and a
    call of [waitfor_communicating] returns true at once and leaves the wait
    list as it is. *)
Theorem handshake_completes `{app : GemApplication} `{codec : SecsCodec}
    (packet : HsmsPacket) (timeout : option Z) (w : World)
    (message : option SecsFunction) :
  current w = DISABLED →
  timers_ok w = true →
  waitlist_ok w = true →
  stream (header packet) = 1 →
  function (header packet) = 14 →
  secs_decode packet = Ok message →
  let w' := exec [OpEnable; OpSelect; OpPacket packet] w in
  current w' = COMMUNICATING
  ∧ requests (trace_since w w') =
      [SecsS01F13 (if isHost (self w) then None
                   else Some [MDLN (self w); SOFTREV (self w)])]
  ∧ responses (trace_since w w') = []
  ∧ (∀ t o, timer_heap w' !! t = Some o → live o = false)
  ∧ ∃ w'',
      waitfor_communicating timeout w'
        = (Ok (fresh (dom (event_heap w')), Some true), w'')
      ∧ waitEventList (self w'') = waitEventList (self w').
Proof.
  intros Hs Htimers Hwait Hst Hfn Hdec w'.
  apply bool_decide_eq_true in Htimers. apply bool_decide_eq_true in Hwait.
  assert (Hwf' : waitlist_wf w').
  { destruct (exec_evolves None [OpEnable; OpSelect; OpPacket packet] w)
      as (_ & _ & Hwf); [intros e [=]|]. by apply Hwf. }
  assert (Hmain :
    current w' = COMMUNICATING
    ∧ requests (trace_since w w') =
        [SecsS01F13 (if isHost (self w) then None
                     else Some [MDLN (self w); SOFTREV (self w)])]
    ∧ responses (trace_since w w') = []
    ∧ no_live (timer_heap w')).
  { subst w'. clear Hwait Hwf'.
    destruct w as [h th eh c tr]. unfold timers_wf, trace_since in *.
    unfold current in *.
    destruct h as [mdln softrev host st cra delay dt rid wl cbs t3].
    cbn [self timer_heap trace communicationState waitCRATimer
         commDelayTimer isHost MDLN SOFTREV] in *.
    subst st.
    assert (Hno : no_live th) by (apply (owned_no_owner _ _ _ _ Htimers); no_owner).
    unfold exec. cbn [foldl run_op].
    match goal with
    | |- context [enable ?w0] =>
        let H := fresh "Henable" in
        eassert (H : enable w0 = (Ok (), _))
          by (unfold enable; mrun_fire; reflexivity);
        rewrite H; clear H; cbn [snd]
    end.
    destruct host.
    all: match goal with
         | |- context [_on_hsms_select ?w0] =>
             let H := fresh "Hselect" in
             eassert (H : _on_hsms_select w0 = (Ok (), _))
               by (unfold _on_hsms_select; mrun_fire; reflexivity);
             rewrite H; clear H; cbn [snd]
         end.
    all: match goal with
         | |- context [_on_hsms_packet_received ?p ?w0] =>
             let H := fresh "Hpacket" in
             eassert (H : _on_hsms_packet_received p w0 = (Ok (), _))
               by (unfold _on_hsms_packet_received; mrun_fire;
                   rewrite for_each_Event_set; reflexivity);
             rewrite H; clear H; cbn [snd]
         end.
    all: cbn [snd self timer_heap trace communicationState
              set_communicationState].
    all: rewrite <- !app_assoc, drop_app_length.
    all: split; [reflexivity|].
    all: split; [unfold requests; cbn; fold (requests (EventSet <$> wl));
                 by rewrite requests_EventSet|].
    all: split; [unfold responses; cbn; fold (responses (EventSet <$> wl));
                 by rewrite responses_EventSet|].
    all: by apply no_live_replaced. }
  destruct Hmain as (Hcur & Hreq & Hresp & Hno).
  split; [done|]. split; [done|]. split; [done|]. split; [exact Hno|].
  clear Hreq Hresp Hno Htimers Hwait. clearbody w'.
  destruct (waitfor_communicating_spec timeout w')
    as (w'' & l' & Hrun & Hrm & Hself & _).
  rewrite bool_decide_eq_true_2 in Hrun, Hself by done.
  rewrite (list_remove_snoc_fresh _ _ (fresh_event_not_registered w' Hwf'))
    in Hrm.
  injection Hrm as <-. exists w''. split; [done|].
  rewrite Hself. by destruct (self w').
Qed.

Lemma handshake_completes_witness :
  let packet := sample_packet 1 14 false in
  let timeout := None in
  let w := equipment_world in
  let w' := exec [OpEnable; OpSelect; OpPacket packet] w in
  current w' = COMMUNICATING
  ∧ requests (trace_since w w') =
      [SecsS01F13 (if isHost (self w) then None
                   else Some [MDLN (self w); SOFTREV (self w)])]
  ∧ responses (trace_since w w') = []
  ∧ (∀ t o, timer_heap w' !! t = Some o → live o = false)
  ∧ ∃ w'',
      waitfor_communicating timeout w'
        = (Ok (fresh (dom (event_heap w')), Some true), w'')
      ∧ waitEventList (self w'') = waitEventList (self w').
Proof.
  apply (handshake_completes (sample_packet 1 14 false) None equipment_world
           (Some (SecsS01F14 0 (Some [])))).
  - vm_compute; reflexivity.
  - vm_compute; reflexivity.
  - vm_compute; reflexivity.
  - reflexivity.
  - reflexivity.
  - vm_compute; reflexivity.
Defined.

(** X16: [disable] in any state but DISABLED followed by [enable] leaves
    the session in NOT_COMMUNICATING with nothing sent, and no timer of the
    cycle that was disabled fires afterwards, however much time passes: the
    thread of every timer does nothing. *)
Theorem disable_then_enable_is_fresh `{app : GemApplication}
    `{codec : SecsCodec} (w : World) :
  current w ≠ DISABLED →
  timers_ok w = true →
  let w' := exec [OpDisable; OpEnable] w in
  current w' = NOT_COMMUNICATING
  ∧ requests (trace_since w w') = []
  ∧ responses (trace_since w w') = []
  ∧ ∀ t now,
      Timer_run t (advance now w').2 = (Ok (), (advance now w').2).
Proof.
  intros Hactive Hok w'. apply bool_decide_eq_true in Hok.
  assert (Hmain :
    current w' = NOT_COMMUNICATING
    ∧ requests (trace_since w w') = []
    ∧ responses (trace_since w w') = []
    ∧ no_live (timer_heap w')).
  { subst w'. destruct w as [h th eh c tr]. unfold timers_wf, trace_since in *.
    unfold current in *.
    destruct h as [mdln softrev host st cra delay dt rid wl cbs t3].
    cbn [trace self timer_heap communicationState waitCRATimer
         commDelayTimer] in *.
    unfold exec. cbn [foldl run_op].
    destruct st; try done.
    all: unfold disable; mrun_fire; destruct_vars.
    all: cbn [snd]; unfold enable; mrun_fire.
    all: cbn [snd self timer_heap trace communicationState
              set_communicationState].
    all: rewrite <- !app_assoc, drop_app_length.
    all: split; [reflexivity|]; split; [reflexivity|];
      split; [reflexivity|].
    all: get_no_live Hok. }
  destruct Hmain as (Hcur & Hreq & Hresp & Hno).
  split; [done|]. split; [done|]. split; [done|].
  clearbody w'. intros t now. apply no_live_Timer_run. by destruct w'.
Qed.

Lemma disable_then_enable_is_fresh_witness :
  let w := wait_delay_world in
  let w' := exec [OpDisable; OpEnable] w in
  current w' = NOT_COMMUNICATING
  ∧ requests (trace_since w w') = []
  ∧ responses (trace_since w w') = []
  ∧ ∀ t now,
      Timer_run t (advance now w').2 = (Ok (), (advance now w').2).
Proof.
  apply (disable_then_enable_is_fresh wait_delay_world).
  - vm_compute; discriminate.
  - vm_compute; reflexivity.
Defined.

(** ** The retry loop without an answer *)

(** One round: the handshake timer expires, then the retry-delay timer. *)
Lemma retry_round `{app : GemApplication}
    `{codec : SecsCodec} (s : Z) (w : World) :
  handshake_pending s w →
  let period := Z.max 0 (T3 (self w)) + Z.max 0 (commDelayTimeout (self w)) in
  let w' := timeouts 2 w in
  handshake_pending (s + period) w'
  ∧ clock w' = s + period
  ∧ same_configuration (self w) (self w')
  ∧ ∃ δ, trace w' = trace w ++ δ
         ∧ requests δ = [handshake_request (self w)]
         ∧ responses δ = [].
Proof.
  intros (Hs & t & Hcra & Hlook & Hclock) period w'. subst period w'.
  destruct w as [h th eh c tr]. unfold handshake_pending, current in *.
  destruct h as [mdln softrev host st cra delay dt rid wl cbs t3].
  cbn [self timer_heap clock trace communicationState waitCRATimer T3
       commDelayTimeout] in *.
  subst st cra.
  pose proof (fresh_timer_other th t _ set_finished Hlook) as Hne.
  set (t1 := fresh (dom (alter set_finished t th))) in *.
  set (due := s + Z.max 0 t3) in *.
  set (heap1 :=
    alter set_finished t
      (alter (set_started due) t1
         (<[t1 := {| interval := dt; timer_function := on_wait_comm_delay_timeout;
                     started := None; finished := false |}]>
            (alter set_finished t th)))).
  assert (Hlook1 : heap1 !! t1
    = Some {| interval := dt; timer_function := on_wait_comm_delay_timeout;
              started := Some due; finished := false |}).
  { unfold heap1. rewrite lookup_alter_ne by done.
    by rewrite lookup_alter_eq, lookup_insert_eq. }
  assert (Hne2 : fresh (dom (alter set_finished t1 heap1)) ≠ t1).
  { eapply fresh_timer_other. exact Hlook1. }
  set (t2 := fresh (dom (alter set_finished t1 heap1))) in *.
  set (due2 := due + Z.max 0 dt) in *.
  assert (Hlook2 :
    alter set_finished t1
      (alter (set_started due2) t2
         (<[t2 := {| interval := t3; timer_function := on_wait_cra_timeout;
                     started := None; finished := false |}]>
            (alter set_finished t1 heap1))) !! t2
    = Some {| interval := t3; timer_function := on_wait_cra_timeout;
              started := Some due2; finished := false |}).
  { rewrite lookup_alter_ne by done.
    by rewrite lookup_alter_eq, lookup_insert_eq. }
  destruct host.
  all: match goal with
       | |- context [timeouts 2 ?w0] => eassert (Hrun : timeouts 2 w0 = _)
       end;
    [ cbn [timeouts]; unfold current_timer at 1;
      cbn [current self communicationState waitCRATimer];
      match goal with
      | |- context [expire ?tt ?w0] => eassert (Hfirst : expire tt w0 = _)
      end;
      [ unfold expire; cbn [timer_heap]; rewrite Hlook;
        cbn [started interval]; unfold exec; cbn [foldl run_op];
        unfold advance, set_clock;
        cbn [snd self timer_heap event_heap clock trace];
        fold due; replace (Z.max c due) with due by lia;
        unfold Timer_run; cbn [timer_heap clock]; rewrite Hlook;
        cbn [started finished interval timer_function]; fold due;
        rewrite bool_decide_eq_true_2 by lia;
        unfold call_timer_function, _on_wait_cra_timeout, Timer_finish;
        mrun_fire; fold t1; fold heap1; reflexivity |];
      rewrite Hfirst; clear Hfirst;
      unfold current_timer at 1;
      cbn [current self communicationState commDelayTimer set_commDelayTimer
           set_communicationState];
      match goal with
      | |- context [expire ?tt ?w0] => eassert (Hsecond : expire tt w0 = _)
      end;
      [ unfold expire; cbn [timer_heap]; rewrite Hlook1;
        cbn [started interval]; unfold exec; cbn [foldl run_op];
        unfold advance, set_clock;
        cbn [snd self timer_heap event_heap clock trace];
        fold due2; replace (Z.max due due2) with due2 by lia;
        unfold Timer_run; cbn [timer_heap clock]; rewrite Hlook1;
        cbn [started finished interval timer_function]; fold due2;
        rewrite bool_decide_eq_true_2 by lia;
        unfold call_timer_function, _on_wait_comm_delay_timeout, Timer_finish;
        mrun_fire; fold t2; reflexivity |];
      rewrite Hsecond; reflexivity |].
  all: rewrite Hrun; clear Hrun.
  all: cbn [self timer_heap clock trace communicationState waitCRATimer
            set_waitCRATimer set_communicationState set_commDelayTimer
            T3 commDelayTimeout isHost MDLN SOFTREV].
  all: replace (s + (Z.max 0 t3 + Z.max 0 dt)) with due2
    by (unfold due2, due; lia).
  all: split;
    [ split; [reflexivity|]; exists t2; split; [reflexivity|];
      split; [exact Hlook2 | lia] |].
  all: split; [reflexivity|].
  all: split; [by repeat split|].
  all: rewrite <- !app_assoc; eexists; split; [reflexivity|]; by split.
Qed.

Lemma requests_app (δ1 δ2 : list action) :
  requests (δ1 ++ δ2) = requests δ1 ++ requests δ2.
Proof. apply omap_app. Qed.

Lemma responses_app (δ1 δ2 : list action) :
  responses (δ1 ++ δ2) = responses δ1 ++ responses δ2.
Proof. apply omap_app. Qed.

Lemma replicate_snoc {A} (n : nat) (x : A) :
  replicate n x ++ [x] = replicate (S n) x.
Proof. induction n as [|n IH]; [done|]. cbn. by rewrite IH. Qed.

(** X17: without an answer from the peer the handshake is retried for
    ever.  After [n] rounds, in each of which the handshake timer and then
    the retry-delay timer expire, the session is again in WAIT_CRA with a
    running handshake timer, [n] more S1F13 were sent and no reply, and the
    timer was started [n] times [T3 + commDelayTimeout] after the first
    one: there is no bound on the number of retries. *)
Theorem retry_loop_never_gives_up `{app : GemApplication} `{codec : SecsCodec}
    (n : nat) (s : Z) (w : World) :
  handshake_pending s w →
  let period := Z.max 0 (T3 (self w)) + Z.max 0 (commDelayTimeout (self w)) in
  let w' := Nat.iter n (timeouts 2) w in
  handshake_pending (s + Z.of_nat n * period) w'
  ∧ requests (trace_since w w') = replicate n (handshake_request (self w))
  ∧ responses (trace_since w w') = [].
Proof.
  intros Hpending period w'. subst w'.
  assert (Hmain :
    handshake_pending (s + Z.of_nat n * period) (Nat.iter n (timeouts 2) w)
    ∧ same_configuration (self w) (self (Nat.iter n (timeouts 2) w))
    ∧ ∃ δ, trace (Nat.iter n (timeouts 2) w) = trace w ++ δ
           ∧ requests δ = replicate n (handshake_request (self w))
           ∧ responses δ = []).
  { induction n as [|n IH].
    - cbn [Nat.iter]. replace (s + Z.of_nat 0 * period) with s by lia.
      split; [done|]. split; [by repeat split|].
      exists []. by rewrite app_nil_r.
    - rewrite !Nat.iter_succ. destruct IH as (Hp & Hconf & δ & Htr & Hreq & Hresp).
      destruct (retry_round _ _ Hp) as (Hp' & _ & Hconf' & δ' & Htr' & Hreq' & Hresp').
      destruct Hconf as (Hhost & Hmdln & Hsoft & Ht3 & Hdt).
      destruct Hconf' as (Hhost' & Hmdln' & Hsoft' & Ht3' & Hdt').
      rewrite Ht3, Hdt in Hp'. fold period in Hp'.
      replace (s + Z.of_nat n * period + period)
        with (s + Z.of_nat (S n) * period) in Hp' by lia.
      split; [exact Hp'|]. split.
      { unfold same_configuration.
        rewrite Hhost', Hmdln', Hsoft', Ht3', Hdt'. by repeat split. }
      exists (δ ++ δ'). split; [by rewrite Htr', Htr, app_assoc|].
      rewrite requests_app, responses_app, Hreq, Hreq', Hresp, Hresp'.
      split; [| done].
      unfold handshake_request. rewrite Hhost, Hmdln, Hsoft.
      apply replicate_snoc. }
  destruct Hmain as (Hp & _ & δ & Htr & Hreq & Hresp).
  split; [done|]. unfold trace_since. rewrite Htr, drop_app_length. by split.
Qed.

Lemma retry_loop_never_gives_up_witness :
  let n := 3%nat in
  let s := 0 in
  let w := wait_cra_world in
  let period := Z.max 0 (T3 (self w)) + Z.max 0 (commDelayTimeout (self w)) in
  let w' := Nat.iter n (timeouts 2) w in
  handshake_pending (s + Z.of_nat n * period) w'
  ∧ requests (trace_since w w') = replicate n (handshake_request (self w))
  ∧ responses (trace_since w w') = [].
Proof.
  apply (retry_loop_never_gives_up 3 0 wait_cra_world).
  split; [vm_compute; reflexivity|].
  exists 0%nat. split; [vm_compute; reflexivity|].
  split; [vm_compute; reflexivity | vm_compute; discriminate].
Defined.

Example three_rounds :
  let w := Nat.iter 3 (timeouts 2) wait_cra_world in
  current w = WAIT_CRA ∧ clock w = 165
  ∧ length (requests (trace w)) = 4%nat.
Proof. vm_compute. done. Qed.
